(** * Shallow embedding of the godal C bridge (vsil_go.cpp, godal.cpp)

    The virtual filesystem handler that forwards to Go callbacks
    ([VSIGoHandle], [VSIGoFilesystemHandler], [VSIInstallGoHandler]) and the
    error/config scope bridge ([godalWrap], [godalUnwrap], [forceError] and
    the bridged calls built on them). *)

From Stdlib Require Import ZArith Lia String Ascii.
From stdpp Require Import base list gmap strings pretty.

Open Scope Z_scope.

(** ** Machine integers and platform constants *)

(** [size_t] and [vsi_l_offset] are 64-bit unsigned: arithmetic wraps. *)
Definition u64 (z : Z) : Z := z mod 2^64.

Definition EIO : Z := 5.
Definition ENOENT : Z := 2.
Definition SEEK_SET : Z := 0.
Definition SEEK_CUR : Z := 1.
Definition SEEK_END : Z := 2.

(** ** C strings

    A [char *] is the list of its characters; [cstr] reads it up to the
    first NUL, as every C string function does. *)

Definition NUL : ascii := "000"%char.

Fixpoint cstr (s : list ascii) : list ascii :=
  match s with
  | [] => []
  | c :: cs => if Ascii.eqb c NUL then [] else c :: cstr cs
  end.

(** [strchr s c], as the index of the first occurrence of [c] before the
    terminator, or [None] for a null pointer. *)
Fixpoint strchr_idx (s : list ascii) (c : ascii) (i : nat) : option nat :=
  match s with
  | [] => None
  | x :: xs =>
      if Ascii.eqb x NUL then None
      else if Ascii.eqb x c then Some i else strchr_idx xs c (S i)
  end.

Definition strchr (s : string) (c : ascii) : bool :=
  match strchr_idx (list_ascii_of_string s) c 0 with
  | Some _ => true
  | None => false
  end.

(** [memcpy(dst, src, n)] on byte buffers. *)
Definition memcpy (dst src : list Byte.byte) (n : nat) : list Byte.byte :=
  take n src ++ drop n dst.

Module Vsil.

(** ** The Go side: the three callbacks exported by cgo *)

Record go_callbacks := {
  _gogdalSizeCallback : string -> Z * option string;
  _gogdalReadCallback : string -> Z -> Z -> Z * option string;
  (** key, nRanges, destination buffers, offsets, sizes; returns the
      status, the error string and the destination buffers as written. *)
  _gogdalMultiReadCallback :
    string -> Z -> list (list Byte.byte) -> list Z -> list Z ->
    Z * option string * list (list Byte.byte)
}.

(** Every invocation of a Go callback, in order. *)
Inductive cb_event :=
| EvSize (key : string)
| EvRead (key : string) (off len : Z)
| EvMultiRead (key : string) (nRanges : Z) (offsets sizes : list Z).

(** The process-level effects visible to the caller: [errno], the native
    diagnostic channel ([CPLError] messages, in order) and the callback
    trace. *)
Record world := mkWorld {
  w_errno : Z;
  w_diags : list string;
  w_trace : list cb_event
}.

Definition CPLError (msg : string) (w : world) : world :=
  mkWorld (w_errno w) (w_diags w ++ [msg]) (w_trace w).

Definition set_errno (e : Z) (w : world) : world :=
  mkWorld e (w_diags w) (w_trace w).

Definition log_cb (ev : cb_event) (w : world) : world :=
  mkWorld (w_errno w) (w_diags w) (w_trace w ++ [ev]).

(** ** VSIGoHandle *)

Record VSIGoHandle := mkHandle {
  m_filename : string;
  m_cur : Z;
  m_size : Z;
  m_eof : Z
}.

Definition new_VSIGoHandle (filename : string) (size : Z) : VSIGoHandle :=
  mkHandle filename 0 (u64 size) 0.

Definition set_cur (c : Z) (h : VSIGoHandle) : VSIGoHandle :=
  mkHandle (m_filename h) c (m_size h) (m_eof h).

Definition set_eof (e : Z) (h : VSIGoHandle) : VSIGoHandle :=
  mkHandle (m_filename h) (m_cur h) (m_size h) e.

Definition Seek (h : VSIGoHandle) (nOffset nWhence : Z) : Z * VSIGoHandle :=
  let h1 :=
    if Z.eqb nWhence SEEK_SET then set_cur nOffset h
    else if Z.eqb nWhence SEEK_CUR then set_cur (u64 (m_cur h + nOffset)) h
    else set_cur (m_size h) h in
  (0, set_eof 0 h1).

Definition Tell (h : VSIGoHandle) : Z := m_cur h.

Definition Eof (h : VSIGoHandle) : Z := m_eof h.

Definition Read (cbs : go_callbacks) (h : VSIGoHandle) (w : world)
    (nSize nCount : Z) : Z * VSIGoHandle * world :=
  let req := u64 (nSize * nCount) in
  if Z.eqb req 0 then (0, h, w) else
  let '(read, err) := _gogdalReadCallback cbs (m_filename h) (m_cur h) req in
  let w1 := log_cb (EvRead (m_filename h) (m_cur h) req) w in
  match err with
  | Some e => (0, h, set_errno EIO (CPLError e w1))
  | None =>
      let h1 := if Z.eqb read req then h else set_eof 1 h in
      let readblocks := read / nSize in
      (readblocks, set_cur (u64 (m_cur h1 + readblocks * nSize)) h1, w1)
  end.

(** ** ReadMultiRange

    Arrays are lists read with [nth]; the loops over [iRange] from [0] to
    [nRanges - 2] are recursions on a fuel of [nRanges - 1] steps. *)

Definition adjacent (panOffsets panSizes : list Z) (i : nat) : bool :=
  Z.eqb (u64 (nth i panOffsets 0 + nth i panSizes 0)) (nth (S i) panOffsets 0).

Fixpoint count_merged (panOffsets panSizes : list Z) (i fuel : nat)
    (nMergedRanges : Z) : Z :=
  match fuel with
  | O => nMergedRanges
  | S f =>
      count_merged panOffsets panSizes (S i) f
        (if adjacent panOffsets panSizes i then nMergedRanges
         else nMergedRanges + 1)
  end.

Definition merged_count (nRanges : Z) (panOffsets panSizes : list Z) : Z :=
  count_merged panOffsets panSizes 0 (Z.to_nat (nRanges - 1)) 1.

(** One merged run: [mOffsets[k]], [mSizes[k]] and the freshly allocated
    [mData[k]].  [fresh k n] is the content of the [k]-th [new char[n]]:
    uninitialised memory, left as a parameter. *)
Fixpoint build_runs (fresh : nat -> Z -> list Byte.byte)
    (panOffsets panSizes : list Z) (i fuel : nat) (cur : Z * Z)
    (done : list (Z * Z * list Byte.byte)) : list (Z * Z * list Byte.byte) :=
  match fuel with
  | O => done ++ [(cur.1, cur.2, fresh (length done) cur.2)]
  | S f =>
      if adjacent panOffsets panSizes i then
        build_runs fresh panOffsets panSizes (S i) f
          (cur.1, u64 (cur.2 + nth (S i) panSizes 0)) done
      else
        build_runs fresh panOffsets panSizes (S i) f
          (nth (S i) panOffsets 0, nth (S i) panSizes 0)
          (done ++ [(cur.1, cur.2, fresh (length done) cur.2)])
  end.

(** The copy-back loop of the merge path. *)
Fixpoint demux (panOffsets panSizes : list Z) (mData : list (list Byte.byte))
    (i fuel : nat) (curRange : nat) (curOffset : Z)
    (ppData : list (list Byte.byte)) : list (list Byte.byte) :=
  match fuel with
  | O => ppData
  | S f =>
      let n := nth (S i) panSizes 0 in
      if adjacent panOffsets panSizes i then
        demux panOffsets panSizes mData (S i) f curRange (u64 (curOffset + n))
          (<[S i := memcpy (nth (S i) ppData [])
                      (drop (Z.to_nat curOffset) (nth curRange mData []))
                      (Z.to_nat n)]> ppData)
      else
        demux panOffsets panSizes mData (S i) f (S curRange) n
          (<[S i := memcpy (nth (S i) ppData []) (nth (S curRange) mData [])
                      (Z.to_nat n)]> ppData)
  end.

(** Result: the return value, the destination buffers and the world;
    [None] where the code reads [panSizes[0]] of an empty batch. *)
Definition ReadMultiRange (cbs : go_callbacks) (fresh : nat -> Z -> list Byte.byte)
    (h : VSIGoHandle) (w : world) (nRanges : Z) (ppData : list (list Byte.byte))
    (panOffsets panSizes : list Z) : option (Z * list (list Byte.byte) * world) :=
  let nMergedRanges := merged_count nRanges panOffsets panSizes in
  if Z.eqb nMergedRanges nRanges then
    let '(ret, err, data) :=
      _gogdalMultiReadCallback cbs (m_filename h) nRanges ppData panOffsets panSizes in
    let w1 := log_cb (EvMultiRead (m_filename h) nRanges panOffsets panSizes) w in
    match err with
    | Some e => Some (-1, data, set_errno EIO (CPLError e w1))
    | None => Some (ret, data, w1)
    end
  else if Z.leb nRanges 0 then None
  else
    let runs := build_runs fresh panOffsets panSizes 0 (Z.to_nat (nRanges - 1))
                  (nth 0 panOffsets 0, nth 0 panSizes 0) [] in
    let mData := map (fun r => r.2) runs in
    let '(ret, err, data) :=
      _gogdalMultiReadCallback cbs (m_filename h) nRanges ppData panOffsets panSizes in
    let w1 := log_cb (EvMultiRead (m_filename h) nRanges panOffsets panSizes) w in
    match err with
    | None =>
        let size0 := nth 0 panSizes 0 in
        let data0 := <[0%nat := memcpy (nth 0 data []) (nth 0 mData [])
                                  (Z.to_nat size0)]> data in
        Some (ret, demux panOffsets panSizes mData 0 (Z.to_nat (nRanges - 1))
                     0 size0 data0, w1)
    | Some e => Some (-1, data, set_errno EIO (CPLError e w1))
    end.

(** ** VSIGoFilesystemHandler *)

Record VSIGoFilesystemHandler := mkFsHandler { m_buffer : Z; m_cache : Z }.

Definition new_VSIGoFilesystemHandler (bufferSize cacheSize : Z) :
    VSIGoFilesystemHandler :=
  mkFsHandler bufferSize (if cacheSize <? bufferSize then bufferSize else cacheSize).

(** The handle returned to GDAL: the raw handle, or the raw handle wrapped
    by [VSICreateCachedFile] with the two sizes. *)
Inductive VSIVirtualHandle :=
| RawGoHandle (h : VSIGoHandle)
| CachedFile (h : VSIGoHandle) (chunkSize cacheSize : Z).

Definition Open (cbs : go_callbacks) (fs : VSIGoFilesystemHandler) (w : world)
    (pszFilename pszAccess : string) (bSetError : bool) :
    option VSIVirtualHandle * world :=
  if strchr pszAccess "w" || strchr pszAccess "+" then
    (None, CPLError "Only read-only mode is supported" w)
  else
    let '(s, err) := _gogdalSizeCallback cbs pszFilename in
    let w1 := log_cb (EvSize pszFilename) w in
    if Z.eqb s (-1) then
      let w2 := match err with Some e => CPLError e w1 | None => w1 end in
      (None, set_errno ENOENT w2)
    else if Z.eqb (m_buffer fs) 0 then
      (Some (RawGoHandle (new_VSIGoHandle pszFilename s)), w1)
    else
      (Some (CachedFile (new_VSIGoHandle pszFilename s) (m_buffer fs) (m_cache fs)), w1).

(** ** VSIInstallGoHandler

    GDAL's [VSIFileManager] keeps one handler per prefix;
    [GetPrefixes] lists the prefixes of the table. *)

Inductive fs_handler :=
| NativeHandler (name : string)
| GoHandler (fs : VSIGoFilesystemHandler).

Definition GetPrefixes (fm : gmap string fs_handler) : list string :=
  fst <$> map_to_list fm.

Fixpoint prefix_taken (papszPrefix : list string) (pszPrefix : string) : bool :=
  match papszPrefix with
  | [] => false
  | p :: ps => if String.eqb p pszPrefix then true else prefix_taken ps pszPrefix
  end.

Definition VSIInstallGoHandler (fm : gmap string fs_handler) (pszPrefix : string)
    (bufferSize cacheSize : Z) : option string * gmap string fs_handler :=
  if prefix_taken (GetPrefixes fm) pszPrefix then
    (Some "handler already registered on prefix", fm)
  else
    (None, <[pszPrefix := GoHandler (new_VSIGoFilesystemHandler bufferSize cacheSize)]> fm).

End Vsil.

Module Godal.

(** ** The call context and the thread-local state *)

Definition CE_None : Z := 0.
Definition CE_Debug : Z := 1.
Definition CE_Warning : Z := 2.
Definition CE_Failure : Z := 3.
Definition CE_Fatal : Z := 4.
Definition CPLE_AppDefined : Z := 1.
Definition OGRNullFID : Z := -1.

(** [cctx] of godal.h; [configOptions] is a null-terminated [char **]
    ([None] for [nullptr]). *)
Record cctx := mkCctx {
  errMessage : option string;
  handlerIdx : Z;
  failed : Z;
  configOptions : option (list (list ascii))
}.

(** Entries of GDAL's thread-local error handler stack. *)
Inductive err_handler :=
| GodalErrorHandler
| OtherHandler.

(** Calls made into the native library, in order. *)
Inductive native_event :=
| NGDALOpenEx (name : string)
| NOGR_F_GetFID
| NOGR_L_DeleteFeature (layer fid : Z).

(** The context the installed handler writes to, the handler stack, the
    thread-local config options, stderr and the native call log. *)
Record tstate := mkT {
  ctx : cctx;
  handlers : list err_handler;
  config : gmap string string;
  stderr_log : list string;
  native_log : list native_event
}.

Definition set_ctx (c : cctx) (s : tstate) : tstate :=
  mkT c (handlers s) (config s) (stderr_log s) (native_log s).
Definition set_handlers (hs : list err_handler) (s : tstate) : tstate :=
  mkT (ctx s) hs (config s) (stderr_log s) (native_log s).
Definition set_config (m : gmap string string) (s : tstate) : tstate :=
  mkT (ctx s) (handlers s) m (stderr_log s) (native_log s).
Definition log_stderr (msg : string) (s : tstate) : tstate :=
  mkT (ctx s) (handlers s) (config s) (stderr_log s ++ [msg]) (native_log s).
Definition log_native (ev : native_event) (s : tstate) : tstate :=
  mkT (ctx s) (handlers s) (config s) (stderr_log s) (native_log s ++ [ev]).

Definition set_errMessage (m : option string) (c : cctx) : cctx :=
  mkCctx m (handlerIdx c) (failed c) (configOptions c).
Definition set_failed (f : Z) (c : cctx) : cctx :=
  mkCctx (errMessage c) (handlerIdx c) f (configOptions c).
Definition set_configOptions (o : option (list (list ascii))) (c : cctx) : cctx :=
  mkCctx (errMessage c) (handlerIdx c) (failed c) o.

(** The Go logger [goErrorHandler(loggerID, lvl, code, msg)]. *)
Definition go_logger := Z -> Z -> Z -> string -> Z.

(** What one native call does: the diagnostics it raises, then its result. *)
Record native_outcome (R : Type) := mkOutcome {
  n_diags : list (Z * Z * string);
  n_result : R
}.
Arguments mkOutcome {R}.
Arguments n_diags {R}.
Arguments n_result {R}.

Section Bridge.

Variable goErrorHandler : go_logger.

Definition godalErrorHandler (e n : Z) (msg : string) (s : tstate) : tstate :=
  let c := ctx s in
  if negb (Z.eqb (handlerIdx c) 0) then
    let ret := goErrorHandler (handlerIdx c) e n msg in
    if negb (Z.eqb ret 0) && Z.eqb (failed c) 0 then set_ctx (set_failed 1 c) s
    else s
  else if e <? CE_Warning then log_stderr (String.append "GDAL: " msg) s
  else
    match errMessage c with
    | None => set_ctx (set_errMessage (Some msg) c) s
    | Some m =>
        set_ctx (set_errMessage (Some (String.append m
                   (String.append (String "010"%char EmptyString) msg))) c) s
    end.

(** [CPLError] dispatches to the handler on top of the thread's stack;
    any other handler is taken to print the message. *)
Definition CPLError (e n : Z) (msg : string) (s : tstate) : tstate :=
  match handlers s with
  | GodalErrorHandler :: _ => godalErrorHandler e n msg s
  | _ => log_stderr msg s
  end.

Definition run_diags (ds : list (Z * Z * string)) (s : tstate) : tstate :=
  fold_left (fun s' d => CPLError d.1.1 d.1.2 d.2 s') ds s.

(** *** Config overrides *)

Definition CPLSetThreadLocalConfigOption (key : list ascii)
    (value : option (list ascii)) (s : tstate) : tstate :=
  let k := string_of_list_ascii (cstr key) in
  match value with
  | Some v => set_config (<[k := string_of_list_ascii (cstr v)]> (config s)) s
  | None => set_config (delete k (config s)) s
  end.

(** One iteration of the loop of [godalWrap]: cut the option at its first
    ['='], set KEY to VALUE, put the ['='] back. *)
Definition wrap_option (option : list ascii) (s : tstate) : list ascii * tstate :=
  match strchr_idx option "=" 0 with
  | None => (option, s)
  | Some idx =>
      let option1 := <[idx := NUL]> option in
      let s1 := CPLSetThreadLocalConfigOption option1 (Some (drop (S idx) option1)) s in
      (<[idx := "="%char]> option1, s1)
  end.

(** One iteration of the loop of [godalUnwrap]: unset KEY. *)
Definition unwrap_option (option : list ascii) (s : tstate) : list ascii * tstate :=
  match strchr_idx option "=" 0 with
  | None => (option, s)
  | Some idx =>
      let option1 := <[idx := NUL]> option in
      let s1 := CPLSetThreadLocalConfigOption option1 None s in
      (<[idx := "="%char]> option1, s1)
  end.

Fixpoint options_loop (step : list ascii -> tstate -> list ascii * tstate)
    (options : list (list ascii)) (s : tstate) : list (list ascii) * tstate :=
  match options with
  | [] => ([], s)
  | o :: os =>
      let '(o', s1) := step o s in
      let '(os', s2) := options_loop step os s1 in
      (o' :: os', s2)
  end.

Definition godalWrap (s : tstate) : tstate :=
  let s1 := set_handlers (GodalErrorHandler :: handlers s) s in
  match configOptions (ctx s1) with
  | None => s1
  | Some options =>
      let '(options', s2) := options_loop wrap_option options s1 in
      set_ctx (set_configOptions (Some options') (ctx s2)) s2
  end.

Definition godalUnwrap (s : tstate) : tstate :=
  let s1 := set_handlers (tail (handlers s)) s in
  match configOptions (ctx s1) with
  | None => s1
  | Some options =>
      let '(options', s2) := options_loop unwrap_option options s1 in
      set_ctx (set_configOptions (Some options') (ctx s2)) s2
  end.

(** The keys a config list overrides: the text before the first ['=']. *)
Definition option_key (opt : list ascii) : option string :=
  match strchr_idx opt "=" 0 with
  | None => None
  | Some idx => Some (string_of_list_ascii (cstr (<[idx := NUL]> opt)))
  end.

Fixpoint override_keys (options : list (list ascii)) : list string :=
  match options with
  | [] => []
  | o :: os =>
      match option_key o with
      | Some k => k :: override_keys os
      | None => override_keys os
      end
  end.

Definition ctx_override_keys (c : cctx) : list string :=
  match configOptions c with
  | None => []
  | Some options => override_keys options
  end.

(** *** Error forcing and two bridged calls *)

Definition failed_ctx (c : cctx) : bool :=
  match errMessage c with
  | Some _ => true
  | None => negb (Z.eqb (failed c) 0)
  end.

Definition forceError (s : tstate) : tstate :=
  if negb (failed_ctx (ctx s)) then
    CPLError CE_Failure CPLE_AppDefined "unknown error" s
  else s.

Definition forceOGRError (err : Z) (s : tstate) : tstate :=
  if negb (failed_ctx (ctx s)) then
    CPLError CE_Failure CPLE_AppDefined (String.append "unknown ogr error " (pretty err)) s
  else s.

Definition godalOpen (GDALOpenEx : string -> native_outcome (option Z))
    (s : tstate) (name : string) : option Z * tstate :=
  let s1 := godalWrap s in
  let o := GDALOpenEx name in
  let s2 := run_diags (n_diags o) (log_native (NGDALOpenEx name) s1) in
  let ret := n_result o in
  let s3 := match ret with None => forceError s2 | Some _ => s2 end in
  (ret, godalUnwrap s3).

(** An [OGRFeatureH], of which only the FID is read. *)
Record feature := mkFeature { f_fid : Z }.

Definition godalLayerDeleteFeature
    (OGR_L_DeleteFeature : Z -> Z -> native_outcome Z)
    (s : tstate) (layer : Z) (feat : feature) : tstate :=
  let s1 := godalWrap s in
  let fid := f_fid feat in
  let s2 := log_native NOGR_F_GetFID s1 in
  if Z.eqb fid OGRNullFID then
    godalUnwrap (CPLError CE_Failure CPLE_AppDefined
                   "cannot delete feature with no FID" s2)
  else
    let o := OGR_L_DeleteFeature layer fid in
    let s3 := run_diags (n_diags o) (log_native (NOGR_L_DeleteFeature layer fid) s2) in
    let gret := n_result o in
    let s4 := if negb (Z.eqb gret 0) then forceOGRError gret s3 else s3 in
    godalUnwrap s4.

End Bridge.

End Godal.

Module VsilExtra.
Import Vsil.

(** ** Stat *)

Definition VSI_STAT_SIZE_FLAG : Z := 4.
Definition VSI_STAT_SET_ERROR_FLAG : Z := 8.
Definition S_IFREG : Z := 32768.

Record VSIStatBufL := mkStat { st_mode : Z; st_size : Z }.

(** [CPLError("%s", err)] with a null [err] prints "(null)" (glibc). *)
Definition Stat (cbs : go_callbacks) (w : world) (pszFilename : string)
    (pStatBuf : VSIStatBufL) (nFlags : Z) : Z * VSIStatBufL * world :=
  let '(s, err) := _gogdalSizeCallback cbs pszFilename in
  let w1 := log_cb (EvSize pszFilename) w in
  if Z.eqb s (-1) then
    if negb (Z.eqb (Z.land nFlags VSI_STAT_SET_ERROR_FLAG) 0) then
      (-1, pStatBuf,
       set_errno ENOENT (CPLError (match err with Some e => e | None => "(null)" end) w1))
    else (-1, pStatBuf, w1)
  else
    let buf := mkStat S_IFREG 0 in
    let buf := if negb (Z.eqb (Z.land nFlags VSI_STAT_SIZE_FLAG) 0)
               then mkStat (st_mode buf) s else buf in
    (0, buf, w1).

End VsilExtra.

Module GodalExtra.
Import Godal.

Section Calls.

Variable goErrorHandler : go_logger.

Definition forceCPLError (err : Z) (s : tstate) : tstate :=
  if negb (failed_ctx (ctx s)) then
    CPLError goErrorHandler CE_Failure CPLE_AppDefined
      (String.append "unknown cpl error " (pretty err)) s
  else s.

(** *** godalSetDatasetNoDataValue

    [count] is [GDALGetRasterCount(ds)]; [setBand i] is
    [GDALSetRasterNoDataValue(GDALGetRasterBand(ds,i), nd)]. *)
Fixpoint nodata_loop (setBand : Z -> native_outcome Z) (i : Z) (fuel : nat)
    (ret : Z) (s : tstate) : Z * tstate :=
  match fuel with
  | O => (ret, s)
  | S f =>
      let o := setBand i in
      let s1 := run_diags goErrorHandler (n_diags o) s in
      let br := n_result o in
      nodata_loop setBand (i + 1) f
        (if negb (Z.eqb br 0) && Z.eqb ret 0 then br else ret) s1
  end.

Definition godalSetDatasetNoDataValue (count : Z) (setBand : Z -> native_outcome Z)
    (s : tstate) : tstate :=
  let s1 := godalWrap s in
  if Z.eqb count 0 then
    godalUnwrap (CPLError goErrorHandler CE_Failure CPLE_AppDefined
                   "cannot set nodata value on dataset with no raster bands" s1)
  else
    let '(ret, s2) := nodata_loop setBand 1 (Z.to_nat count) CE_None s1 in
    let s3 := if negb (Z.eqb ret 0) then forceCPLError ret s2 else s2 in
    godalUnwrap s3.

(** *** godalCreateDatasetMaskBand

    [count] is [GDALGetRasterCount(ds)], [create] the outcome of
    [GDALCreateDatasetMaskBand], [getMask] of [GDALGetMaskBand]. *)
Definition godalCreateDatasetMaskBand (count : Z) (create : native_outcome Z)
    (getMask : native_outcome (option Z)) (s : tstate) : option Z * tstate :=
  let s1 := godalWrap s in
  if Z.eqb count 0 then
    (None, godalUnwrap (CPLError goErrorHandler CE_Failure CPLE_AppDefined
                          "cannot create mask band on dataset with no bands" s1))
  else
    let s2 := run_diags goErrorHandler (n_diags create) s1 in
    let ret := n_result create in
    if negb (Z.eqb ret 0) then (None, godalUnwrap (forceCPLError ret s2))
    else
      let s3 := run_diags goErrorHandler (n_diags getMask) s2 in
      let mbnd := n_result getMask in
      let s4 := match mbnd with None => forceError goErrorHandler s3 | Some _ => s3 end in
      (mbnd, godalUnwrap s4).

(** *** godalPolygonize

    [fieldCount] is [OGR_FD_GetFieldCount(OGR_L_GetLayerDefn(layer))]. *)
Definition godalPolygonize (fieldCount fieldIndex : Z) (polygonize : native_outcome Z)
    (s : tstate) : tstate :=
  let s1 := godalWrap s in
  if fieldCount <=? fieldIndex then
    godalUnwrap (CPLError goErrorHandler CE_Failure CPLE_AppDefined "invalid fieldIndex" s1)
  else
    let s2 := run_diags goErrorHandler (n_diags polygonize) s1 in
    let ret := n_result polygonize in
    godalUnwrap (if negb (Z.eqb ret 0) then forceCPLError ret s2 else s2).

(** *** godalTranslate

    [optsNew] is [GDALTranslateOptionsNew] (only its diagnostics matter),
    [translate] is [GDALTranslate]: the dataset and [usageErr]. *)
Definition godalTranslate (optsNew : native_outcome unit)
    (translate : native_outcome (option Z * Z)) (s : tstate) : option Z * tstate :=
  let s1 := godalWrap s in
  let s2 := run_diags goErrorHandler (n_diags optsNew) s1 in
  if failed_ctx (ctx s2) then (None, godalUnwrap s2)
  else
    let s3 := run_diags goErrorHandler (n_diags translate) s2 in
    let '(ret, usageErr) := n_result translate in
    let s4 := match ret with
              | None => forceError goErrorHandler s3
              | Some _ => if negb (Z.eqb usageErr 0) then forceError goErrorHandler s3 else s3
              end in
    (ret, godalUnwrap s4).

(** *** godalNewGeometryFromGeoJSON *)
Definition godalNewGeometryFromGeoJSON (create : native_outcome (option Z))
    (s : tstate) : option Z * tstate :=
  let s1 := godalWrap s in
  let s2 := run_diags goErrorHandler (n_diags create) s1 in
  let gptr := n_result create in
  let s3 := match gptr with None => forceError goErrorHandler s2 | Some _ => s2 end in
  let gptr' := if failed_ctx (ctx s3) then None else gptr in
  (gptr', godalUnwrap s3).

(** *** godalGetRasterStatistics *)
Definition godalGetRasterStatistics (stats : native_outcome Z) (s : tstate) :
    Z * tstate :=
  let s1 := godalWrap s in
  let s2 := run_diags goErrorHandler (n_diags stats) s1 in
  let ret := n_result stats in
  let s3 := if negb (Z.eqb ret 0) && negb (Z.eqb ret CE_Warning)
            then forceCPLError ret s2 else s2 in
  (if Z.eqb ret 0 then 1 else 0, godalUnwrap s3).

(** *** godalExportGeometryWKB

    [wkbSize] is [OGR_G_WkbSize(in)]; [export] is [OGR_G_ExportToIsoWkb]:
    its error code and the bytes it writes. Returns [*wkb] ([None] for
    [nullptr]), [*wkbLen] and the state. *)
Definition godalExportGeometryWKB (wkbSize : Z)
    (export : native_outcome (Z * list Byte.byte)) (s : tstate) :
    option (list Byte.byte) * Z * tstate :=
  let s1 := godalWrap s in
  let wkbLen := wkbSize in
  if Z.eqb wkbLen 0 then (None, wkbLen, godalUnwrap s1)
  else
    let s2 := run_diags goErrorHandler (n_diags export) s1 in
    let '(gret, bytes) := n_result export in
    if negb (Z.eqb gret 0) then
      (None, wkbLen, godalUnwrap (forceOGRError goErrorHandler gret s2))
    else (Some bytes, wkbLen, godalUnwrap s2).

(** *** godalVSIClose

    The call uses a context of its own, [{nullptr,0,0,nullptr}], installed
    in the handler slot for the duration of the call; it returns that
    context's message. *)
Definition godalVSIClose (close : native_outcome Z) (s : tstate) :
    option string * tstate :=
  let saved := ctx s in
  let s0 := set_ctx (mkCctx None 0 0 None) s in
  let s1 := godalWrap s0 in
  let s2 := run_diags goErrorHandler (n_diags close) s1 in
  let s3 := if negb (Z.eqb (n_result close) 0) then forceError goErrorHandler s2 else s2 in
  let s4 := godalUnwrap s3 in
  (errMessage (ctx s4), set_ctx saved s4).

End Calls.

(** *** Null-terminated handle lists

    [malloc((count+1)*sizeof(H))] of unspecified content [garbage], the
    terminator written at [count], then slots [0..count-1] filled. *)
Fixpoint fill_handles (get : Z -> Z) (i fuel : nat) (ret : list Z) : list Z :=
  match fuel with
  | O => ret
  | S f => fill_handles get (S i) f (<[i := get (Z.of_nat i)]> ret)
  end.

Definition null_terminated (count : Z) (get : Z -> Z) (garbage : Z) : list Z :=
  fill_handles get 0 (Z.to_nat count)
    (<[Z.to_nat count := 0]> (repeat garbage (Z.to_nat count + 1))).

(** [GDALGetRasterBand(ds, i+1)] for slot [i]. *)
Definition godalRasterBands (count : Z) (GDALGetRasterBand : Z -> Z) (garbage : Z) :
    option (list Z) :=
  if Z.eqb count 0 then None
  else Some (null_terminated count (fun i => GDALGetRasterBand (i + 1)) garbage).

(** [GDALDatasetGetLayer(ds, i)] for slot [i]. *)
Definition godalVectorLayers (count : Z) (GDALDatasetGetLayer : Z -> Z) (garbage : Z) :
    option (list Z) :=
  if Z.eqb count 0 then None
  else Some (null_terminated count GDALDatasetGetLayer garbage).

(** [GDALGetOverview(bnd, i)] for slot [i]. *)
Definition godalBandOverviews (count : Z) (GDALGetOverview : Z -> Z) (garbage : Z) :
    option (list Z) :=
  if Z.eqb count 0 then None
  else Some (null_terminated count GDALGetOverview garbage).

(** Messages joined as [godalErrorHandler] appends them: separated by a
    newline. *)
Definition join_nl (msgs : list string) : option string :=
  match msgs with
  | [] => None
  | m :: ms =>
      Some (fold_left (fun a b => String.append a (String.append (String "010"%char EmptyString) b)) ms m)
  end.

End GodalExtra.

(** * Properties of the virtual filesystem bridge *)

Module VsilProofs.
Import Vsil.

(** Closes a goal about concrete values by evaluation. *)
Ltac concrete :=
  repeat split; vm_compute; try reflexivity; try (intros ?; discriminate).

(** Concrete callbacks over a 15-byte object of [0x01] bytes. *)
Definition demo_file : list Byte.byte := repeat Byte.x01 15.

Definition demo_cbs : go_callbacks := {|
  _gogdalSizeCallback := fun _ => (15, None);
  _gogdalReadCallback := fun _ off len => (Z.min len (Z.max 0 (15 - off)), None);
  _gogdalMultiReadCallback := fun _ _ bufs offs sizes =>
    (0, None, zip_with (fun o s => take (Z.to_nat s) (drop (Z.to_nat o) demo_file))
                offs sizes)
|}.

(** The same object, but the multi-range callback fails with status 7. *)
Definition failing_cbs : go_callbacks := {|
  _gogdalSizeCallback := fun _ => (-1, Some "no such object");
  _gogdalReadCallback := fun _ _ _ => (0, Some "boom");
  _gogdalMultiReadCallback := fun _ _ bufs _ _ => (7, Some "boom", bufs)
|}.

Definition zero_fresh (k : nat) (n : Z) : list Byte.byte := repeat Byte.x00 (Z.to_nat n).

Definition demo_handle : VSIGoHandle := new_VSIGoHandle "k" 15.
Definition empty_world : world := mkWorld 0 [] [].

Example seek_end_demo : Seek (set_cur 3 demo_handle) 100 SEEK_END
  = (0, mkHandle "k" 15 15 0).
Proof. reflexivity. Qed.

Example read_short_demo : Read demo_cbs (set_cur 10 demo_handle) empty_world 4 3
  = (1, mkHandle "k" 14 15 1, mkWorld 0 [] [EvRead "k" 10 12]).
Proof. reflexivity. Qed.

(** C10: [Seek] always returns 0 and clears the end-of-file flag; SEEK_SET
    stores the offset as given (no bound check against the size), SEEK_CUR
    adds it to the cursor modulo 2^64, and any other [whence] moves the
    cursor to the recorded size, ignoring the offset. *)
Theorem Seek_spec (h : VSIGoHandle) (nOffset nWhence : Z) :
  let '(ret, h') := Seek h nOffset nWhence in
  ret = 0 /\ m_eof h' = 0 /\ m_filename h' = m_filename h /\ m_size h' = m_size h /\
  ((nWhence = SEEK_SET /\ m_cur h' = nOffset) \/
   (nWhence = SEEK_CUR /\ m_cur h' = u64 (m_cur h + nOffset)) \/
   (nWhence <> SEEK_SET /\ nWhence <> SEEK_CUR /\ m_cur h' = m_size h)).
Proof.
  unfold Seek.
  destruct (Z.eqb_spec nWhence SEEK_SET) as [Hs|Hs];
    [|destruct (Z.eqb_spec nWhence SEEK_CUR) as [Hc|Hc]];
    simpl; repeat split; auto.
Qed.

(** C3: when the read callback succeeds but delivers fewer bytes than the
    requested [size*count] (the [size_t] product), [Read] sets the
    end-of-file flag, raises no diagnostic and leaves [errno] alone,
    returns the number of whole elements [bytesRead / size], and moves the
    cursor by that many elements times [size]; any later [Seek] clears the
    flag again. *)
Theorem Read_short_sets_eof (cbs : go_callbacks) (h : VSIGoHandle) (w : world)
    (nSize nCount bytesRead : Z)
    (Hreq : u64 (nSize * nCount) <> 0)
    (Hcb : _gogdalReadCallback cbs (m_filename h) (m_cur h) (u64 (nSize * nCount))
           = (bytesRead, None))
    (Hshort : 0 <= bytesRead < u64 (nSize * nCount)) :
  let '(ret, h', w') := Read cbs h w nSize nCount in
  ret = bytesRead / nSize /\
  m_eof h' = 1 /\
  m_cur h' = u64 (m_cur h + (bytesRead / nSize) * nSize) /\
  m_filename h' = m_filename h /\ m_size h' = m_size h /\
  w_errno w' = w_errno w /\ w_diags w' = w_diags w /\
  (forall nOffset nWhence, m_eof (snd (Seek h' nOffset nWhence)) = 0).
Proof.
  unfold Read.
  apply Z.eqb_neq in Hreq. rewrite Hreq, Hcb.
  assert (Hne : (bytesRead =? u64 (nSize * nCount)) = false) by (apply Z.eqb_neq; lia).
  rewrite Hne; simpl.
  repeat split; intros; reflexivity.
Qed.

Lemma Read_short_sets_eof_witness :
  u64 (4 * 3) <> 0 /\
  _gogdalReadCallback demo_cbs (m_filename (set_cur 10 demo_handle))
    (m_cur (set_cur 10 demo_handle)) (u64 (4 * 3)) = (5, None) /\
  0 <= 5 < u64 (4 * 3) /\
  (let '(ret, h', w') := Read demo_cbs (set_cur 10 demo_handle) empty_world 4 3 in
   ret = 5 / 4 /\
   m_eof h' = 1 /\
   m_cur h' = u64 (m_cur (set_cur 10 demo_handle) + (5 / 4) * 4) /\
   m_filename h' = m_filename (set_cur 10 demo_handle) /\
   m_size h' = m_size (set_cur 10 demo_handle) /\
   w_errno w' = w_errno empty_world /\ w_diags w' = w_diags empty_world /\
   (forall nOffset nWhence, m_eof (snd (Seek h' nOffset nWhence)) = 0)).
Proof.
  refine (conj _ (conj _ (conj _ _))); [concrete | concrete | concrete |].
  apply (Read_short_sets_eof demo_cbs (set_cur 10 demo_handle) empty_world 4 3 5);
    concrete.
Defined.

(** C8: an access string containing ['w'] or ['+'] makes [Open] fail at
    once with a diagnostic and no handle, before any Go callback runs. *)
Theorem Open_write_mode_rejected (cbs : go_callbacks) (fs : VSIGoFilesystemHandler)
    (w : world) (pszFilename pszAccess : string) (bSetError : bool)
    (Hmode : strchr pszAccess "w" = true \/ strchr pszAccess "+" = true) :
  Open cbs fs w pszFilename pszAccess bSetError
    = (None, CPLError "Only read-only mode is supported" w) /\
  w_trace (snd (Open cbs fs w pszFilename pszAccess bSetError)) = w_trace w.
Proof.
  unfold Open.
  destruct Hmode as [H|H]; rewrite H; [|rewrite orb_true_r]; split; reflexivity.
Qed.

Lemma Open_write_mode_rejected_witness :
  (strchr "w+" "w" = true \/ strchr "w+" "+" = true) /\
  Open failing_cbs (new_VSIGoFilesystemHandler 0 0) empty_world "k" "w+" true
    = (None, CPLError "Only read-only mode is supported" empty_world) /\
  w_trace (snd (Open failing_cbs (new_VSIGoFilesystemHandler 0 0) empty_world "k" "w+" true))
    = w_trace empty_world.
Proof.
  split; [left; reflexivity|].
  apply Open_write_mode_rejected. left; reflexivity.
Defined.

(** C4 (failing input): the size callback reports [-1] with an error text
    and the caller passed [bSetError = false]; [Open] still emits the
    text as a diagnostic (besides failing with [ENOENT] and no handle). *)
Theorem Open_missing_ignores_bSetError :
  Open failing_cbs (new_VSIGoFilesystemHandler 0 0) empty_world "missing" "rb" false
    = (None, mkWorld ENOENT ["no such object"] [EvSize "missing"]).
Proof. reflexivity. Qed.

(** ** Handler registration *)

Lemma prefix_taken_spec (l : list string) (p : string) :
  prefix_taken l p = true <-> p ∈ l.
Proof.
  induction l as [|q l IH]; simpl.
  - split; [discriminate | intros H; inversion H].
  - rewrite elem_of_cons. destruct (String.eqb_spec q p) as [->|Hne].
    + split; auto.
    + rewrite IH. split; [auto | intros [H|H]; [congruence | exact H]].
Qed.

Lemma GetPrefixes_spec (fm : gmap string fs_handler) (p : string) :
  prefix_taken (GetPrefixes fm) p = true <-> is_Some (fm !! p).
Proof.
  rewrite prefix_taken_spec. unfold GetPrefixes.
  rewrite list_elem_of_fmap. split.
  - intros [[k x] [-> Hin]]. apply elem_of_map_to_list in Hin. simpl. eauto.
  - intros [x Hx]. exists (p, x). split; [reflexivity|].
    apply elem_of_map_to_list. exact Hx.
Qed.

(** C7: on a prefix already in the handler table, registration returns
    the "already registered" message and leaves the table as it was; on a
    free prefix it adds a Go handler there, touches no other prefix and
    returns no error. *)
Theorem VSIInstallGoHandler_spec (fm : gmap string fs_handler) (pszPrefix : string)
    (bufferSize cacheSize : Z) :
  (is_Some (fm !! pszPrefix) /\
   VSIInstallGoHandler fm pszPrefix bufferSize cacheSize
     = (Some "handler already registered on prefix", fm)) \/
  (fm !! pszPrefix = None /\
   VSIInstallGoHandler fm pszPrefix bufferSize cacheSize
     = (None, <[pszPrefix := GoHandler (new_VSIGoFilesystemHandler bufferSize cacheSize)]> fm) /\
   (forall p, p <> pszPrefix ->
      snd (VSIInstallGoHandler fm pszPrefix bufferSize cacheSize) !! p = fm !! p)).
Proof.
  unfold VSIInstallGoHandler.
  destruct (prefix_taken (GetPrefixes fm) pszPrefix) eqn:Ht.
  - left. split; [apply GetPrefixes_spec; exact Ht | reflexivity].
  - right. split; [|split; [reflexivity|]].
    + destruct (fm !! pszPrefix) eqn:Hl; [|reflexivity].
      assert (Hs : is_Some (fm !! pszPrefix)) by (rewrite Hl; eauto).
      apply GetPrefixes_spec in Hs. congruence.
    + intros p Hp. simpl. apply lookup_insert_ne. congruence.
Qed.

(** ** Multi-range reads *)

Example merged_count_demo : merged_count 4 [0; 10; 20; 30] [10; 5; 5; 1] = 3.
Proof. reflexivity. Qed.

(** C2 (as amended): when no two consecutive ranges are adjacent, the
    batch goes to the multi-range callback in one call with [nRanges],
    the offsets and the sizes unchanged; without an error its status is
    returned as is, with an error the text becomes a diagnostic, [errno]
    is [EIO] and the result is [-1]. *)
Theorem ReadMultiRange_fast_path (cbs : go_callbacks) (fresh : nat -> Z -> list Byte.byte)
    (h : VSIGoHandle) (w : world) (nRanges : Z) (ppData : list (list Byte.byte))
    (panOffsets panSizes : list Z)
    (Hnm : merged_count nRanges panOffsets panSizes = nRanges) :
  let ev := EvMultiRead (m_filename h) nRanges panOffsets panSizes in
  let '(ret, err, data) :=
    _gogdalMultiReadCallback cbs (m_filename h) nRanges ppData panOffsets panSizes in
  ReadMultiRange cbs fresh h w nRanges ppData panOffsets panSizes =
    Some (match err with
          | None => (ret, data, mkWorld (w_errno w) (w_diags w) (w_trace w ++ [ev]))
          | Some e => (-1, data, mkWorld EIO (w_diags w ++ [e]) (w_trace w ++ [ev]))
          end).
Proof.
  unfold ReadMultiRange. rewrite Hnm, Z.eqb_refl.
  destruct (_gogdalMultiReadCallback cbs _ _ _ _ _) as [[ret [e|]] data]; reflexivity.
Qed.

Definition demo_buffers : list (list Byte.byte) := [repeat Byte.x02 10; repeat Byte.x02 5].

Lemma ReadMultiRange_fast_path_witness :
  merged_count 2 [0; 11] [10; 5] = 2 /\
  ReadMultiRange demo_cbs zero_fresh demo_handle empty_world 2 demo_buffers [0; 11] [10; 5]
    = Some (0, [repeat Byte.x01 10; repeat Byte.x01 4],
            mkWorld 0 [] [EvMultiRead "k" 2 [0; 11] [10; 5]]).
Proof.
  split; [reflexivity|].
  pose proof (ReadMultiRange_fast_path demo_cbs zero_fresh demo_handle empty_world 2
                demo_buffers [0; 11] [10; 5] eq_refl) as H.
  vm_compute in H. vm_compute. exact H.
Defined.

(** C2 (counterexample): the callback returns status 7 with an error on a
    batch with no adjacent ranges; [ReadMultiRange] returns [-1], not the
    callback's status. *)
Lemma ReadMultiRange_fast_path_error_status :
  merged_count 2 [0; 11] [10; 5] = 2 /\
  _gogdalMultiReadCallback failing_cbs "k" 2 demo_buffers [0; 11] [10; 5]
    = (7, Some "boom", demo_buffers) /\
  ReadMultiRange failing_cbs zero_fresh demo_handle empty_world 2 demo_buffers [0; 11] [10; 5]
    = Some (-1, demo_buffers, mkWorld EIO ["boom"] [EvMultiRead "k" 2 [0; 11] [10; 5]]).
Proof. repeat split; reflexivity. Qed.

(** C1 (failing input): ranges [(0,10)] and [(10,5)] are adjacent and form
    one merged run [(0,15)], but the multi-range callback receives the
    original two-entry batch, and the copy-back then overwrites the
    destination buffers with the never-filled merged buffer (here the
    allocator's zero bytes) instead of the object's [0x01] bytes. *)
Theorem ReadMultiRange_merge_path_demo :
  merged_count 2 [0; 10] [10; 5] = 1 /\
  map (fun r => (r.1.1, r.1.2))
      (build_runs zero_fresh [0; 10] [10; 5] 0 1 (0, 10) []) = [(0, 15)] /\
  take 15 demo_file = repeat Byte.x01 15 /\
  ReadMultiRange demo_cbs zero_fresh demo_handle empty_world 2 demo_buffers [0; 10] [10; 5]
    = Some (0, [repeat Byte.x00 10; repeat Byte.x00 5],
            mkWorld 0 [] [EvMultiRead "k" 2 [0; 10] [10; 5]]).
Proof. repeat split; reflexivity. Qed.

End VsilProofs.

(** * Properties of the error/config scope bridge *)

Module GodalProofs.
Import Godal.

(** ** Frame lemmas: diagnostics only touch the context's error fields *)

(** The parts of the thread state a diagnostic, or a logged native call,
    leaves alone. *)
Definition same_frame (s s' : tstate) : Prop :=
  handlers s' = handlers s /\ config s' = config s /\
  handlerIdx (ctx s') = handlerIdx (ctx s) /\
  configOptions (ctx s') = configOptions (ctx s).

Lemma same_frame_refl s : same_frame s s.
Proof. repeat split. Qed.

Lemma same_frame_trans s1 s2 s3 :
  same_frame s1 s2 -> same_frame s2 s3 -> same_frame s1 s3.
Proof. unfold same_frame. intuition congruence. Qed.

Lemma CPLError_frame logger e n msg s : same_frame s (CPLError logger e n msg s).
Proof.
  unfold CPLError, godalErrorHandler.
  destruct (handlers s) as [|[] hs]; [repeat split| |repeat split].
  destruct (negb (handlerIdx (ctx s) =? 0)); [|destruct (e <? CE_Warning)];
    [destruct (negb _ && _)| |destruct (errMessage (ctx s))]; repeat split.
Qed.

Lemma CPLError_native_log logger e n msg s :
  native_log (CPLError logger e n msg s) = native_log s.
Proof.
  unfold CPLError, godalErrorHandler.
  destruct (handlers s) as [|[] hs]; [reflexivity| |reflexivity].
  destruct (negb (handlerIdx (ctx s) =? 0)); [|destruct (e <? CE_Warning)];
    [destruct (negb _ && _)| |destruct (errMessage (ctx s))]; reflexivity.
Qed.

Lemma run_diags_frame logger ds s : same_frame s (run_diags logger ds s).
Proof.
  unfold run_diags. revert s.
  induction ds as [|d ds IH]; intros s; simpl; [apply same_frame_refl|].
  eapply same_frame_trans; [apply CPLError_frame | apply IH].
Qed.

Lemma forceError_frame logger s : same_frame s (forceError logger s).
Proof.
  unfold forceError. destruct (negb _); [apply CPLError_frame | apply same_frame_refl].
Qed.

Lemma forceOGRError_frame logger err s : same_frame s (forceOGRError logger err s).
Proof.
  unfold forceOGRError. destruct (negb _); [apply CPLError_frame | apply same_frame_refl].
Qed.

(** ** The config option loops *)

Lemma strchr_idx_lookup (o : list ascii) (c : ascii) (i j : nat) :
  strchr_idx o c i = Some j -> (i <= j)%nat /\ o !! (j - i)%nat = Some c.
Proof.
  revert i. induction o as [|x xs IH]; intros i H; simpl in H; [discriminate|].
  destruct (Ascii.eqb x NUL); [discriminate|].
  destruct (Ascii.eqb_spec x c) as [->|Hne].
  - injection H as <-. rewrite Nat.sub_diag. split; [lia | reflexivity].
  - apply IH in H as [Hle Hl]. split; [lia|].
    replace (j - i)%nat with (S (j - S i)) by lia. exact Hl.
Qed.

(** Writing NUL over the ['='] and putting it back restores the option. *)
Lemma restore_option (o : list ascii) (idx : nat) :
  strchr_idx o "=" 0 = Some idx -> <[idx := "="%char]> (<[idx := NUL]> o) = o.
Proof.
  intros H. apply strchr_idx_lookup in H as [_ Hl].
  rewrite Nat.sub_0_r in Hl.
  rewrite list_insert_insert_eq. apply list_insert_id. exact Hl.
Qed.

Lemma wrap_option_spec o s :
  fst (wrap_option o s) = o /\ ctx (snd (wrap_option o s)) = ctx s /\
  handlers (snd (wrap_option o s)) = handlers s /\
  native_log (snd (wrap_option o s)) = native_log s /\
  (forall k, option_key o <> Some k ->
     config (snd (wrap_option o s)) !! k = config s !! k).
Proof.
  unfold wrap_option, option_key.
  destruct (strchr_idx o "=" 0) as [idx|] eqn:Hi; [|repeat split].
  rewrite (restore_option o idx Hi). unfold CPLSetThreadLocalConfigOption.
  simpl. repeat split. intros k Hk.
  apply lookup_insert_ne. congruence.
Qed.

Lemma unwrap_option_spec o s :
  fst (unwrap_option o s) = o /\ ctx (snd (unwrap_option o s)) = ctx s /\
  handlers (snd (unwrap_option o s)) = handlers s /\
  native_log (snd (unwrap_option o s)) = native_log s /\
  (forall k, option_key o <> Some k ->
     config (snd (unwrap_option o s)) !! k = config s !! k) /\
  (forall k, option_key o = Some k -> config (snd (unwrap_option o s)) !! k = None).
Proof.
  unfold unwrap_option, option_key.
  destruct (strchr_idx o "=" 0) as [idx|] eqn:Hi; [|repeat split; intros; discriminate].
  rewrite (restore_option o idx Hi). unfold CPLSetThreadLocalConfigOption.
  simpl. repeat split.
  - intros k Hk. apply lookup_delete_ne. congruence.
  - intros k Hk. injection Hk as <-. apply lookup_delete_eq.
Qed.

Lemma unwrap_option_frame o s :
  fst (unwrap_option o s) = o /\ ctx (snd (unwrap_option o s)) = ctx s /\
  handlers (snd (unwrap_option o s)) = handlers s /\
  native_log (snd (unwrap_option o s)) = native_log s /\
  (forall k, option_key o <> Some k ->
     config (snd (unwrap_option o s)) !! k = config s !! k).
Proof. pose proof (unwrap_option_spec o s). tauto. Qed.

(** Both loops leave the option strings, the context, the handler stack and
    the native log as they found them, and only touch override keys. *)
Lemma options_loop_frame (step : list ascii -> tstate -> list ascii * tstate)
    (Hstep : forall o s, fst (step o s) = o /\ ctx (snd (step o s)) = ctx s /\
               handlers (snd (step o s)) = handlers s /\
               native_log (snd (step o s)) = native_log s /\
               (forall k, option_key o <> Some k ->
                  config (snd (step o s)) !! k = config s !! k))
    (os : list (list ascii)) (s : tstate) :
  fst (options_loop step os s) = os /\ ctx (snd (options_loop step os s)) = ctx s /\
  handlers (snd (options_loop step os s)) = handlers s /\
  native_log (snd (options_loop step os s)) = native_log s /\
  (forall k, k ∉ override_keys os ->
     config (snd (options_loop step os s)) !! k = config s !! k).
Proof.
  revert s. induction os as [|o os IH]; intros s; simpl.
  - repeat split.
  - destruct (Hstep o s) as (Ho & Hc & Hh & Hn & Hk).
    destruct (step o s) as [o' s1] eqn:Es. simpl in *.
    destruct (IH s1) as (Hos & Hc' & Hh' & Hn' & Hk').
    destruct (options_loop step os s1) as [os' s2]. simpl in *.
    subst. repeat split; try congruence.
    intros k Hnot. rewrite Hk'.
    + apply Hk. intros Heq. apply Hnot. rewrite Heq. left.
    + intros Hin. apply Hnot. destruct (option_key o); [right|]; exact Hin.
Qed.

Lemma unwrap_loop_unsets (os : list (list ascii)) (s : tstate) (k : string) :
  k ∈ override_keys os -> config (snd (options_loop unwrap_option os s)) !! k = None.
Proof.
  revert s. induction os as [|o os IH]; intros s Hin; simpl in *.
  - inversion Hin.
  - destruct (unwrap_option_spec o s) as (_ & _ & _ & _ & _ & Hset).
    destruct (unwrap_option o s) as [o' s1] eqn:Es. simpl in *.
    destruct (options_loop unwrap_option os s1) as [os' s2] eqn:El. simpl.
    destruct (decide (k ∈ override_keys os)) as [Hk|Hk].
    + specialize (IH s1 Hk). rewrite El in IH. exact IH.
    + pose proof (options_loop_frame unwrap_option
                    unwrap_option_frame os s1)
        as (_ & _ & _ & _ & Hother).
      rewrite El in Hother. simpl in Hother. rewrite Hother by exact Hk.
      apply Hset. destruct (option_key o) as [k'|]; [|contradiction].
      apply elem_of_cons in Hin as [->|Hin]; [reflexivity | contradiction].
Qed.

Lemma ctx_eta (c : cctx) : set_configOptions (configOptions c) c = c.
Proof. destruct c; reflexivity. Qed.

Lemma godalWrap_spec (s : tstate) :
  handlers (godalWrap s) = GodalErrorHandler :: handlers s /\
  ctx (godalWrap s) = ctx s /\ native_log (godalWrap s) = native_log s /\
  (forall k, k ∉ ctx_override_keys (ctx s) -> config (godalWrap s) !! k = config s !! k).
Proof.
  unfold godalWrap, ctx_override_keys. simpl.
  destruct (configOptions (ctx s)) as [os|] eqn:Ho; [|repeat split].
  pose proof (options_loop_frame wrap_option wrap_option_spec os
               (set_handlers (GodalErrorHandler :: handlers s) s))
    as (Hos & Hc & Hh & Hn & Hk).
  destruct (options_loop wrap_option os _) as [os' s2]. simpl in *. subst os'.
  repeat split; simpl; try congruence.
  - rewrite Hc. simpl. rewrite <- Ho. apply ctx_eta.
  - intros k Hin. rewrite Hk by exact Hin. reflexivity.
Qed.

Lemma godalUnwrap_spec (t : tstate) :
  handlers (godalUnwrap t) = tail (handlers t) /\
  ctx (godalUnwrap t) = ctx t /\ native_log (godalUnwrap t) = native_log t /\
  (forall k, k ∉ ctx_override_keys (ctx t) -> config (godalUnwrap t) !! k = config t !! k) /\
  (forall k, k ∈ ctx_override_keys (ctx t) -> config (godalUnwrap t) !! k = None).
Proof.
  unfold godalUnwrap, ctx_override_keys. simpl.
  destruct (configOptions (ctx t)) as [os|] eqn:Ho;
    [|repeat split; intros k Hk; inversion Hk].
  pose proof (options_loop_frame unwrap_option
                unwrap_option_frame os
               (set_handlers (tail (handlers t)) t)) as (Hos & Hc & Hh & Hn & Hk).
  pose proof (unwrap_loop_unsets os (set_handlers (tail (handlers t)) t)) as Hun.
  destruct (options_loop unwrap_option os _) as [os' s2]. simpl in *. subst os'.
  repeat split; simpl; try congruence.
  - rewrite Hc. simpl. rewrite <- Ho. apply ctx_eta.
  - exact Hk.
  - exact Hun.
Qed.

(** A call wrapped by [godalWrap] ... [godalUnwrap], whose body leaves the
    handler stack, the config and the option list alone. *)
Lemma scoped_call_config (s t : tstate)
    (Hh : handlers t = handlers (godalWrap s))
    (Hc : config t = config (godalWrap s))
    (Ho : configOptions (ctx t) = configOptions (ctx s)) :
  configOptions (ctx (godalUnwrap t)) = configOptions (ctx s) /\
  handlers (godalUnwrap t) = handlers s /\
  (forall k, config (godalUnwrap t) !! k =
     if decide (k ∈ ctx_override_keys (ctx s)) then None else config s !! k).
Proof.
  destruct (godalWrap_spec s) as (Hwh & Hwc & _ & Hwk).
  destruct (godalUnwrap_spec t) as (Huh & Huc & _ & Huk & Hun).
  assert (Hkeys : ctx_override_keys (ctx t) = ctx_override_keys (ctx s))
    by (unfold ctx_override_keys; rewrite Ho; reflexivity).
  rewrite Hkeys in Huk, Hun.
  repeat split.
  - rewrite Huc. exact Ho.
  - rewrite Huh, Hh, Hwh. reflexivity.
  - intros k. destruct (decide _) as [Hin|Hin].
    + apply Hun, Hin.
    + rewrite Huk, Hc, Hwk by exact Hin. reflexivity.
Qed.

Lemma log_native_frame ev s : same_frame s (log_native ev s).
Proof. repeat split. Qed.

(** Chains the frame lemmas through the body of a bridged call. *)
Ltac frame_tac :=
  match goal with
  | |- same_frame ?a ?a => apply same_frame_refl
  | |- same_frame _ (CPLError _ _ _ _ ?x) =>
      apply (same_frame_trans _ x _); [frame_tac | apply CPLError_frame]
  | |- same_frame _ (run_diags _ _ ?x) =>
      apply (same_frame_trans _ x _); [frame_tac | apply run_diags_frame]
  | |- same_frame _ (forceError _ ?x) =>
      apply (same_frame_trans _ x _); [frame_tac | apply forceError_frame]
  | |- same_frame _ (forceOGRError _ _ ?x) =>
      apply (same_frame_trans _ x _); [frame_tac | apply forceOGRError_frame]
  | |- same_frame _ (log_native _ ?x) =>
      apply (same_frame_trans _ x _); [frame_tac | apply log_native_frame]
  end.

Lemma scoped_frame (s t : tstate) (Hf : same_frame (godalWrap s) t) :
  configOptions (ctx (godalUnwrap t)) = configOptions (ctx s) /\
  handlers (godalUnwrap t) = handlers s /\
  (forall k, config (godalUnwrap t) !! k =
     if decide (k ∈ ctx_override_keys (ctx s)) then None else config s !! k).
Proof.
  destruct Hf as (Hh & Hc & _ & Ho).
  destruct (godalWrap_spec s) as (_ & Hwc & _ & _).
  apply scoped_call_config; [exact Hh | exact Hc | rewrite Ho, Hwc; reflexivity].
Qed.

(** C6: around a bridged call ([godalOpen], [godalLayerDeleteFeature], on
    every path: null or non-null result, missing FID, deletion error or
    not), every KEY of a KEY=VALUE entry of the context's config list is
    unset at exit whatever value it had before the call, every other
    thread-local config key keeps its value, the config list is the same
    list of the same bytes, and the handler stack is back as it was. *)
Theorem bridged_calls_revert_config (logger : go_logger)
    (GDALOpenEx : string -> native_outcome (option Z))
    (OGR_L_DeleteFeature : Z -> Z -> native_outcome Z)
    (s : tstate) (name : string) (layer : Z) (feat : feature) :
  (let s' := snd (godalOpen logger GDALOpenEx s name) in
   configOptions (ctx s') = configOptions (ctx s) /\ handlers s' = handlers s /\
   (forall k, config s' !! k =
      if decide (k ∈ ctx_override_keys (ctx s)) then None else config s !! k)) /\
  (let s' := godalLayerDeleteFeature logger OGR_L_DeleteFeature s layer feat in
   configOptions (ctx s') = configOptions (ctx s) /\ handlers s' = handlers s /\
   (forall k, config s' !! k =
      if decide (k ∈ ctx_override_keys (ctx s)) then None else config s !! k)).
Proof.
  split.
  - unfold godalOpen. cbn zeta. apply scoped_frame.
    destruct (n_result (GDALOpenEx name)); frame_tac.
  - unfold godalLayerDeleteFeature. cbn zeta.
    destruct (f_fid feat =? OGRNullFID); apply scoped_frame; [frame_tac|].
    destruct (negb _); frame_tac.
Qed.

(** ** Error forcing *)

Lemma CPLError_logger_mode logger e n msg s hs
    (Hh : handlers s = GodalErrorHandler :: hs) (Hi : handlerIdx (ctx s) <> 0) :
  failed_ctx (ctx (CPLError logger e n msg s)) =
    failed_ctx (ctx s) || negb (logger (handlerIdx (ctx s)) e n msg =? 0).
Proof.
  unfold CPLError. rewrite Hh. unfold godalErrorHandler.
  apply Z.eqb_neq in Hi. rewrite Hi. simpl.
  destruct (logger _ e n msg =? 0); simpl.
  - rewrite orb_false_r. reflexivity.
  - rewrite orb_true_r.
    destruct (failed (ctx s) =? 0) eqn:Hf; simpl; unfold failed_ctx; simpl;
      destruct (errMessage (ctx s)); try reflexivity.
    rewrite Hf. reflexivity.
Qed.

Lemma run_diags_logger_mode logger ds s hs
    (Hh : handlers s = GodalErrorHandler :: hs) (Hi : handlerIdx (ctx s) <> 0) :
  failed_ctx (ctx (run_diags logger ds s)) =
    failed_ctx (ctx s) ||
    existsb (fun d => negb (logger (handlerIdx (ctx s)) d.1.1 d.1.2 d.2 =? 0)) ds.
Proof.
  unfold run_diags. revert s Hh Hi.
  induction ds as [|d ds IH]; intros s Hh Hi; simpl.
  - rewrite orb_false_r. reflexivity.
  - destruct (CPLError_frame logger d.1.1 d.1.2 d.2 s) as (Hh' & _ & Hi' & _).
    rewrite (IH _ (eq_trans Hh' Hh)) by congruence.
    rewrite Hi', (CPLError_logger_mode logger _ _ _ s hs Hh Hi).
    rewrite orb_assoc. reflexivity.
Qed.

Lemma forceError_strict_mode logger s hs
    (Hh : handlers s = GodalErrorHandler :: hs) (Hi : handlerIdx (ctx s) = 0) :
  failed_ctx (ctx (forceError logger s)) = true.
Proof.
  unfold forceError. destruct (failed_ctx (ctx s)) eqn:Hf; [simpl; rewrite Hf; reflexivity|].
  simpl. unfold CPLError. rewrite Hh. unfold godalErrorHandler.
  rewrite Hi. simpl. unfold failed_ctx in Hf.
  destruct (errMessage (ctx s)); [discriminate | reflexivity].
Qed.

Lemma forceError_logger_mode logger s hs
    (Hh : handlers s = GodalErrorHandler :: hs) (Hi : handlerIdx (ctx s) <> 0) :
  failed_ctx (ctx (forceError logger s)) =
    failed_ctx (ctx s) ||
    negb (logger (handlerIdx (ctx s)) CE_Failure CPLE_AppDefined "unknown error" =? 0).
Proof.
  unfold forceError. destruct (failed_ctx (ctx s)) eqn:Hf; [simpl; rewrite Hf; reflexivity|].
  simpl. rewrite (CPLError_logger_mode logger _ _ _ s hs Hh Hi), Hf. reflexivity.
Qed.

(** C5 (as amended): when the native open returns null, [godalOpen]
    forces an "unknown error" diagnostic if none is recorded. In the
    strict local mode ([handlerIdx = 0]) the call then always reports an
    error. With an external logger it reports one exactly when the
    context had already failed or the logger returned non-zero for one of
    the call's diagnostics or for the synthesized one. *)
Theorem godalOpen_null_result_error (logger : go_logger)
    (GDALOpenEx : string -> native_outcome (option Z)) (s : tstate) (name : string)
    (Hnull : n_result (GDALOpenEx name) = None) :
  let '(ret, s') := godalOpen logger GDALOpenEx s name in
  ret = None /\
  failed_ctx (ctx s') =
    failed_ctx (ctx s) || (handlerIdx (ctx s) =? 0) ||
    existsb (fun d => negb (logger (handlerIdx (ctx s)) d.1.1 d.1.2 d.2 =? 0))
      (n_diags (GDALOpenEx name)) ||
    negb (logger (handlerIdx (ctx s)) CE_Failure CPLE_AppDefined "unknown error" =? 0).
Proof.
  unfold godalOpen. rewrite Hnull. cbn zeta. split; [reflexivity|].
  destruct (godalUnwrap_spec
              (forceError logger (run_diags logger (n_diags (GDALOpenEx name))
                 (log_native (NGDALOpenEx name) (godalWrap s))))) as (_ & Huc & _).
  rewrite Huc.
  destruct (godalWrap_spec s) as (Hwh & Hwc & _).
  set (t0 := log_native (NGDALOpenEx name) (godalWrap s)).
  assert (Ht0h : handlers t0 = GodalErrorHandler :: handlers s) by exact Hwh.
  assert (Ht0c : ctx t0 = ctx s) by exact Hwc.
  destruct (run_diags_frame logger (n_diags (GDALOpenEx name)) t0) as (Hrh & _ & Hri & _).
  destruct (handlerIdx (ctx s) =? 0) eqn:Hi.
  - apply Z.eqb_eq in Hi.
    rewrite (forceError_strict_mode logger _ (handlers s)); [|congruence|congruence].
    rewrite orb_true_r. reflexivity.
  - apply Z.eqb_neq in Hi.
    rewrite (forceError_logger_mode logger _ (handlers s)); [|congruence|congruence].
    rewrite (run_diags_logger_mode logger _ t0 (handlers s)); [|congruence|congruence].
    rewrite Hri, Ht0c, orb_false_r. reflexivity.
Qed.

(** A state at the start of a call, strict local mode or external logger. *)
Definition fresh_state (idx : Z) : tstate :=
  mkT (mkCctx None idx 0 None) [] ∅ [] [].

Definition silent_logger : go_logger := fun _ _ _ _ => 0.

Definition failing_open : string -> native_outcome (option Z) :=
  fun _ => mkOutcome [] None.

Lemma godalOpen_null_result_error_witness :
  n_result (failing_open "x.tif") = None /\
  (let '(ret, s') := godalOpen silent_logger failing_open (fresh_state 0) "x.tif" in
   ret = None /\
   failed_ctx (ctx s') =
     failed_ctx (ctx (fresh_state 0)) || (handlerIdx (ctx (fresh_state 0)) =? 0) ||
     existsb (fun d => negb (silent_logger (handlerIdx (ctx (fresh_state 0)))
                              d.1.1 d.1.2 d.2 =? 0))
       (n_diags (failing_open "x.tif")) ||
     negb (silent_logger (handlerIdx (ctx (fresh_state 0))) CE_Failure CPLE_AppDefined
             "unknown error" =? 0)).
Proof.
  split; [reflexivity|].
  exact (godalOpen_null_result_error silent_logger failing_open (fresh_state 0) "x.tif"
           eq_refl).
Defined.

(** C5 (counterexample): with an external logger (index 1) that returns 0
    for every diagnostic, a null [GDALOpenEx] result leaves both the error
    message and the failure flag unset. *)
Lemma godalOpen_silent_logger_null :
  let '(ret, s') := godalOpen silent_logger failing_open (fresh_state 1) "x.tif" in
  ret = None /\ errMessage (ctx s') = None /\ failed (ctx s') = 0.
Proof. vm_compute. repeat split. Qed.

(** ** Feature deletion *)

Lemma godalErrorHandler_ctx logger e n msg t1 t2 (H : ctx t1 = ctx t2) :
  ctx (godalErrorHandler logger e n msg t1) = ctx (godalErrorHandler logger e n msg t2).
Proof.
  unfold godalErrorHandler. rewrite H.
  destruct (negb _); [destruct (negb _ && _)| destruct (e <? CE_Warning)];
    [reflexivity | exact H | exact H | destruct (errMessage (ctx t2)); reflexivity].
Qed.

(** C9: deleting a feature whose FID is [OGRNullFID] raises the failure
    diagnostic "cannot delete feature with no FID" in the call's handler
    and returns; the only native call made is reading the FID, never
    [OGR_L_DeleteFeature]. In the strict local mode, starting with no
    error, that text becomes the call's error message. *)
Theorem godalLayerDeleteFeature_null_fid (logger : go_logger)
    (OGR_L_DeleteFeature : Z -> Z -> native_outcome Z)
    (s : tstate) (layer : Z) (feat : feature)
    (Hfid : f_fid feat = OGRNullFID) :
  let s' := godalLayerDeleteFeature logger OGR_L_DeleteFeature s layer feat in
  native_log s' = native_log s ++ [NOGR_F_GetFID] /\
  handlers s' = handlers s /\
  ctx s' = ctx (godalErrorHandler logger CE_Failure CPLE_AppDefined
                  "cannot delete feature with no FID" s) /\
  (handlerIdx (ctx s) = 0 -> errMessage (ctx s) = None ->
   errMessage (ctx s') = Some "cannot delete feature with no FID").
Proof.
  unfold godalLayerDeleteFeature. rewrite Hfid, Z.eqb_refl. cbn zeta.
  set (t := log_native NOGR_F_GetFID (godalWrap s)).
  destruct (godalWrap_spec s) as (Hwh & Hwc & Hwn & _).
  assert (Hth : handlers t = GodalErrorHandler :: handlers s) by exact Hwh.
  assert (Htc : ctx t = ctx s) by exact Hwc.
  assert (Htn : native_log t = native_log s ++ [NOGR_F_GetFID])
    by (unfold t; simpl; rewrite Hwn; reflexivity).
  destruct (godalUnwrap_spec (CPLError logger CE_Failure CPLE_AppDefined
                                "cannot delete feature with no FID" t))
    as (Huh & Huc & Hun & _).
  destruct (CPLError_frame logger CE_Failure CPLE_AppDefined
              "cannot delete feature with no FID" t) as (Hch & _ & _ & _).
  pose proof (CPLError_native_log logger CE_Failure CPLE_AppDefined
                "cannot delete feature with no FID" t) as Hcn.
  assert (Hctx : ctx (CPLError logger CE_Failure CPLE_AppDefined
                        "cannot delete feature with no FID" t) =
                 ctx (godalErrorHandler logger CE_Failure CPLE_AppDefined
                        "cannot delete feature with no FID" s))
    by (unfold CPLError; rewrite Hth; apply godalErrorHandler_ctx; exact Htc).
  split; [congruence|]. split; [rewrite Huh, Hch, Hth; reflexivity|].
  split; [congruence|].
  intros Hi He. rewrite Huc, Hctx. unfold godalErrorHandler.
  rewrite Hi, He. reflexivity.
Qed.

Definition delete_ok : Z -> Z -> native_outcome Z := fun _ _ => mkOutcome [] 0.

Lemma godalLayerDeleteFeature_null_fid_witness :
  f_fid (mkFeature (-1)) = OGRNullFID /\
  (let s' := godalLayerDeleteFeature silent_logger delete_ok (fresh_state 0) 7
               (mkFeature (-1)) in
   native_log s' = native_log (fresh_state 0) ++ [NOGR_F_GetFID] /\
   handlers s' = handlers (fresh_state 0) /\
   ctx s' = ctx (godalErrorHandler silent_logger CE_Failure CPLE_AppDefined
                   "cannot delete feature with no FID" (fresh_state 0)) /\
   (handlerIdx (ctx (fresh_state 0)) = 0 -> errMessage (ctx (fresh_state 0)) = None ->
    errMessage (ctx s') = Some "cannot delete feature with no FID")).
Proof.
  split; [reflexivity|].
  exact (godalLayerDeleteFeature_null_fid silent_logger delete_ok (fresh_state 0) 7
           (mkFeature (-1)) eq_refl).
Defined.

End GodalProofs.

(** * Further properties of the virtual filesystem bridge *)

Module VsilExtraProofs.
Import Vsil VsilExtra.

(** ** Read *)

(** [VSIGoHandle::Read]: when the Go read callback reports an error, the
    call returns 0, leaves the cursor and the EOF flag as they were, sets
    [errno] to [EIO] and raises the callback's message; the callback was
    asked for the whole request at the current offset. *)
Theorem Read_callback_error (cbs : go_callbacks) (h : VSIGoHandle) (w : world)
    (nSize nCount read : Z) (e : string)
    (Hreq : u64 (nSize * nCount) <> 0)
    (Hcb : _gogdalReadCallback cbs (m_filename h) (m_cur h) (u64 (nSize * nCount))
           = (read, Some e)) :
  Read cbs h w nSize nCount =
    (0, h, mkWorld EIO (w_diags w ++ [e])
             (w_trace w ++ [EvRead (m_filename h) (m_cur h) (u64 (nSize * nCount))])).
Proof.
  unfold Read. apply Z.eqb_neq in Hreq. rewrite Hreq, Hcb. reflexivity.
Qed.

(** Callbacks over a 15-byte object that deliver every request in full. *)
Definition demo_read_cbs : go_callbacks := {|
  _gogdalSizeCallback := fun _ => (15, None);
  _gogdalReadCallback := fun _ _ len => (len, None);
  _gogdalMultiReadCallback := fun _ _ bufs _ _ => (0, None, bufs)
|}.

Definition two_buffers : list (list Byte.byte) := [repeat Byte.x02 10; repeat Byte.x02 5].

Definition no_fresh (k : nat) (n : Z) : list Byte.byte := [].

Definition error_read_cbs : go_callbacks := {|
  _gogdalSizeCallback := fun _ => (15, None);
  _gogdalReadCallback := fun _ _ _ => (0, Some "read failed");
  _gogdalMultiReadCallback := fun _ _ bufs _ _ => (-1, Some "read failed", bufs)
|}.

Lemma Read_callback_error_witness :
  u64 (4 * 3) <> 0 /\
  _gogdalReadCallback error_read_cbs "k" 2 (u64 (4 * 3)) = (0, Some "read failed") /\
  Read error_read_cbs (mkHandle "k" 2 15 0) (mkWorld 0 [] []) 4 3 =
    (0, mkHandle "k" 2 15 0,
     mkWorld EIO ([] ++ ["read failed"])
       ([] ++ [EvRead "k" 2 (u64 (4 * 3))])).
Proof.
  split; [vm_compute; discriminate|]. split; [reflexivity|].
  exact (Read_callback_error error_read_cbs (mkHandle "k" 2 15 0) (mkWorld 0 [] [])
           4 3 0 "read failed" ltac:(vm_compute; discriminate) eq_refl).
Defined.

(** [VSIGoHandle::Read]: when the callback delivers the whole request (of
    [nSize * nCount] bytes, no wrap-around), the call returns [nCount],
    leaves the EOF flag alone and advances the cursor by the request;
    the only effect on the world is the callback invocation. *)
Theorem Read_full (cbs : go_callbacks) (h : VSIGoHandle) (w : world) (nSize nCount : Z)
    (Hsize : 0 < nSize) (Hcount : 0 < nCount) (Hfit : nSize * nCount < 2^64)
    (Hcb : _gogdalReadCallback cbs (m_filename h) (m_cur h) (nSize * nCount)
           = (nSize * nCount, None)) :
  Read cbs h w nSize nCount =
    (nCount, set_cur (u64 (m_cur h + nSize * nCount)) h,
     log_cb (EvRead (m_filename h) (m_cur h) (nSize * nCount)) w).
Proof.
  unfold Read.
  assert (Hu : u64 (nSize * nCount) = nSize * nCount)
    by (unfold u64; apply Z.mod_small; nia).
  rewrite Hu.
  assert (Hnz : (nSize * nCount =? 0) = false) by (apply Z.eqb_neq; nia).
  rewrite Hnz, Hcb, Z.eqb_refl.
  replace (nSize * nCount / nSize) with nCount
    by (rewrite Z.mul_comm, Z.div_mul; lia).
  rewrite (Z.mul_comm nCount nSize). reflexivity.
Qed.

Lemma Read_full_witness :
  0 < 4 /\ 0 < 3 /\ 4 * 3 < 2^64 /\
  _gogdalReadCallback demo_read_cbs "k" 2 (4 * 3) = (4 * 3, None) /\
  Read demo_read_cbs (mkHandle "k" 2 15 0) (mkWorld 0 [] []) 4 3 =
    (3, set_cur (u64 (2 + 4 * 3)) (mkHandle "k" 2 15 0),
     log_cb (EvRead "k" 2 (4 * 3)) (mkWorld 0 [] [])).
Proof.
  split; [lia|]. split; [lia|]. split; [vm_compute; reflexivity|].
  split; [reflexivity|].
  exact (Read_full demo_read_cbs (mkHandle "k" 2 15 0) (mkWorld 0 [] []) 4 3
           ltac:(lia) ltac:(lia) ltac:(vm_compute; reflexivity) eq_refl).
Defined.

(** ** Stat *)

(** [VSIGoFilesystemHandler::Stat] of a missing file (size callback
    returning -1): returns -1 and leaves the stat buffer untouched. With
    [VSI_STAT_SET_ERROR_FLAG] it raises one diagnostic (the callback's
    message when there is one) and sets [errno] to [ENOENT]; without it,
    it raises nothing and leaves [errno] alone. *)
Theorem Stat_missing (cbs : go_callbacks) (w : world) (pszFilename : string)
    (buf : VSIStatBufL) (nFlags : Z) (err : option string)
    (Hs : _gogdalSizeCallback cbs pszFilename = (-1, err)) :
  let '(ret, buf', w') := Stat cbs w pszFilename buf nFlags in
  ret = -1 /\ buf' = buf /\ w_trace w' = w_trace w ++ [EvSize pszFilename] /\
  (if Z.land nFlags VSI_STAT_SET_ERROR_FLAG =? 0
   then w_errno w' = w_errno w /\ w_diags w' = w_diags w
   else w_errno w' = ENOENT /\
        exists msg, w_diags w' = w_diags w ++ [msg] /\
                    (forall e, err = Some e -> msg = e)).
Proof.
  unfold Stat. rewrite Hs. simpl.
  destruct (Z.land nFlags VSI_STAT_SET_ERROR_FLAG =? 0); simpl.
  - repeat split.
  - repeat split.
    eexists. split; [reflexivity|]. intros e ->. reflexivity.
Qed.

Definition missing_cbs : go_callbacks := {|
  _gogdalSizeCallback := fun _ => (-1, Some "no such key");
  _gogdalReadCallback := fun _ _ _ => (0, Some "no such key");
  _gogdalMultiReadCallback := fun _ _ bufs _ _ => (-1, Some "no such key", bufs)
|}.

Lemma Stat_missing_witness :
  _gogdalSizeCallback missing_cbs "k" = (-1, Some "no such key") /\
  (let '(ret, buf', w') := Stat missing_cbs (mkWorld 0 [] []) "k" (mkStat 7 7) 8 in
   ret = -1 /\ buf' = mkStat 7 7 /\ w_trace w' = [] ++ [EvSize "k"] /\
   (if Z.land 8 VSI_STAT_SET_ERROR_FLAG =? 0
    then w_errno w' = 0 /\ w_diags w' = []
    else w_errno w' = ENOENT /\
         exists msg, w_diags w' = [] ++ [msg] /\
                     (forall e, Some "no such key" = Some e -> msg = e))).
Proof.
  split; [reflexivity|].
  exact (Stat_missing missing_cbs (mkWorld 0 [] []) "k" (mkStat 7 7) 8
           (Some "no such key") eq_refl).
Defined.

(** [VSIGoFilesystemHandler::Stat] of an existing file: returns 0, the
    buffer is cleared and describes a regular file, its size is the
    callback's size when [VSI_STAT_SIZE_FLAG] is set and 0 otherwise,
    whatever the buffer held before; [errno] and the diagnostics are left
    alone. *)
Theorem Stat_existing (cbs : go_callbacks) (w : world) (pszFilename : string)
    (buf : VSIStatBufL) (nFlags : Z) (s : Z) (err : option string)
    (Hs : _gogdalSizeCallback cbs pszFilename = (s, err)) (Hne : s <> -1) :
  Stat cbs w pszFilename buf nFlags =
    (0, mkStat S_IFREG (if Z.land nFlags VSI_STAT_SIZE_FLAG =? 0 then 0 else s),
     log_cb (EvSize pszFilename) w).
Proof.
  unfold Stat. rewrite Hs. apply Z.eqb_neq in Hne. rewrite Hne.
  destruct (Z.land nFlags VSI_STAT_SIZE_FLAG =? 0); reflexivity.
Qed.

Lemma Stat_existing_witness :
  _gogdalSizeCallback demo_read_cbs "k" = (15, None) /\ 15 <> -1 /\
  Stat demo_read_cbs (mkWorld 0 [] []) "k" (mkStat 7 7) 4 =
    (0, mkStat S_IFREG (if Z.land 4 VSI_STAT_SIZE_FLAG =? 0 then 0 else 15),
     log_cb (EvSize "k") (mkWorld 0 [] [])).
Proof.
  split; [reflexivity|]. split; [lia|].
  exact (Stat_existing demo_read_cbs (mkWorld 0 [] []) "k" (mkStat 7 7) 4 15 None
           eq_refl ltac:(lia)).
Defined.

(** ** ReadMultiRange: the merge count *)

Lemma count_merged_spec (offs sizes : list Z) (i fuel : nat) (acc : Z) :
  acc <= count_merged offs sizes i fuel acc <= acc + Z.of_nat fuel /\
  (count_merged offs sizes i fuel acc = acc + Z.of_nat fuel <->
   forall j, (i <= j < i + fuel)%nat -> adjacent offs sizes j = false).
Proof.
  revert i acc. induction fuel as [|f IH]; intros i acc; simpl.
  - split; [lia|]. split; [intros _ j Hj; lia | lia].
  - destruct (adjacent offs sizes i) eqn:Ha.
    + destruct (IH (S i) acc) as [Hb Hiff]. split; [lia|]. split.
      * intros Heq. lia.
      * intros Hall. specialize (Hall i ltac:(lia)). congruence.
    + destruct (IH (S i) (acc + 1)) as [Hb Hiff]. split; [lia|]. split.
      * intros Heq j Hj. destruct (Nat.eq_dec j i) as [->|Hji]; [exact Ha|].
        apply (proj1 Hiff); [lia|lia].
      * intros Hall. enough (count_merged offs sizes (S i) f (acc + 1) = acc + 1 + Z.of_nat f)
          by lia.
        apply Hiff. intros j Hj. apply Hall. lia.
Qed.

(** [VSIGoHandle::ReadMultiRange]: for a batch of [nRanges >= 1] ranges
    the merge count lies between 1 and [nRanges], and it equals [nRanges]
    (the fast path) exactly when no range ends where the next one
    starts. *)
Theorem merged_count_bounds (nRanges : Z) (panOffsets panSizes : list Z)
    (Hn : 1 <= nRanges) :
  1 <= merged_count nRanges panOffsets panSizes <= nRanges /\
  (merged_count nRanges panOffsets panSizes = nRanges <->
   forall j, (j < Z.to_nat (nRanges - 1))%nat -> adjacent panOffsets panSizes j = false).
Proof.
  unfold merged_count.
  destruct (count_merged_spec panOffsets panSizes 0 (Z.to_nat (nRanges - 1)) 1)
    as [Hb Hiff].
  rewrite Z2Nat.id in Hb, Hiff by lia.
  split; [lia|]. split.
  - intros Heq j Hj. apply (proj1 Hiff); [lia|lia].
  - intros Hall. replace nRanges with (1 + (nRanges - 1)) at 2 by lia.
    apply Hiff. intros j Hj. apply Hall. lia.
Qed.

Lemma merged_count_bounds_witness :
  1 <= 4 /\
  (1 <= merged_count 4 [0; 10; 20; 30] [10; 5; 5; 1] <= 4 /\
   (merged_count 4 [0; 10; 20; 30] [10; 5; 5; 1] = 4 <->
    forall j, (j < Z.to_nat (4 - 1))%nat -> adjacent [0; 10; 20; 30] [10; 5; 5; 1] j = false)).
Proof.
  split; [lia|].
  exact (merged_count_bounds 4 [0; 10; 20; 30] [10; 5; 5; 1] ltac:(lia)).
Defined.

(** [VSIGoHandle::ReadMultiRange] on the merge path (some ranges
    adjacent): a callback error makes the call return -1 with [errno]
    [EIO] and the callback's message; no copy-back from the merged
    buffers happens, the destination buffers are those the callback left. *)
Theorem ReadMultiRange_merge_path_error (cbs : go_callbacks)
    (fresh : nat -> Z -> list Byte.byte) (h : VSIGoHandle) (w : world) (nRanges : Z)
    (ppData : list (list Byte.byte)) (panOffsets panSizes : list Z)
    (ret : Z) (e : string) (data : list (list Byte.byte))
    (Hmerge : merged_count nRanges panOffsets panSizes <> nRanges)
    (Hn : 0 < nRanges)
    (Hcb : _gogdalMultiReadCallback cbs (m_filename h) nRanges ppData panOffsets panSizes
           = (ret, Some e, data)) :
  ReadMultiRange cbs fresh h w nRanges ppData panOffsets panSizes =
    Some (-1, data,
          mkWorld EIO (w_diags w ++ [e])
            (w_trace w ++ [EvMultiRead (m_filename h) nRanges panOffsets panSizes])).
Proof.
  unfold ReadMultiRange. apply Z.eqb_neq in Hmerge. rewrite Hmerge.
  assert (Hle : (nRanges <=? 0) = false) by (apply Z.leb_gt; lia).
  rewrite Hle, Hcb. reflexivity.
Qed.

Lemma ReadMultiRange_merge_path_error_witness :
  merged_count 2 [0; 10] [10; 5] <> 2 /\ 0 < 2 /\
  _gogdalMultiReadCallback error_read_cbs "k" 2 two_buffers [0; 10] [10; 5]
    = (-1, Some "read failed", two_buffers) /\
  ReadMultiRange error_read_cbs no_fresh (mkHandle "k" 0 15 0) (mkWorld 0 [] []) 2
    two_buffers [0; 10] [10; 5] =
    Some (-1, two_buffers,
          mkWorld EIO ([] ++ ["read failed"]) ([] ++ [EvMultiRead "k" 2 [0; 10] [10; 5]])).
Proof.
  split; [vm_compute; discriminate|]. split; [lia|]. split; [reflexivity|].
  exact (ReadMultiRange_merge_path_error error_read_cbs no_fresh (mkHandle "k" 0 15 0)
           (mkWorld 0 [] []) 2 two_buffers [0; 10] [10; 5] (-1) "read failed"
           two_buffers ltac:(vm_compute; discriminate) ltac:(lia) eq_refl).
Defined.

(** ** Open on a handler built by the installer *)

(** [VSIGoFilesystemHandler::Open] of an existing file in read mode, on a
    handler made by the constructor with [bufferSize] and [cacheSize]:
    the handle starts at offset 0, with the callback's size and no EOF,
    is raw when [bufferSize] is 0 and otherwise wrapped in a cache whose
    size is never below the chunk size; errno and the diagnostics are
    untouched (the callback's error string is ignored). *)
Theorem Open_existing (cbs : go_callbacks) (bufferSize cacheSize : Z) (w : world)
    (pszFilename pszAccess : string) (bSetError : bool) (s : Z) (err : option string)
    (Hw : strchr pszAccess "w" = false) (Hp : strchr pszAccess "+" = false)
    (Hs : _gogdalSizeCallback cbs pszFilename = (s, err)) (Hne : s <> -1) :
  Open cbs (new_VSIGoFilesystemHandler bufferSize cacheSize) w pszFilename pszAccess
    bSetError =
  (Some (if bufferSize =? 0
         then RawGoHandle (mkHandle pszFilename 0 (u64 s) 0)
         else CachedFile (mkHandle pszFilename 0 (u64 s) 0) bufferSize
                (Z.max bufferSize cacheSize)),
   log_cb (EvSize pszFilename) w).
Proof.
  unfold Open. rewrite Hw, Hp, Hs. simpl.
  apply Z.eqb_neq in Hne. rewrite Hne.
  destruct (bufferSize =? 0); [reflexivity|].
  unfold new_VSIGoHandle. do 3 f_equal.
  destruct (cacheSize <? bufferSize) eqn:Hc;
    [apply Z.ltb_lt in Hc | apply Z.ltb_ge in Hc]; lia.
Qed.

Lemma Open_existing_witness :
  strchr "rb" "w" = false /\ strchr "rb" "+" = false /\
  _gogdalSizeCallback demo_read_cbs "k" = (15, None) /\ 15 <> -1 /\
  Open demo_read_cbs (new_VSIGoFilesystemHandler 64 16) (mkWorld 0 [] []) "k" "rb" true =
  (Some (if 64 =? 0
         then RawGoHandle (mkHandle "k" 0 (u64 15) 0)
         else CachedFile (mkHandle "k" 0 (u64 15) 0) 64 (Z.max 64 16)),
   log_cb (EvSize "k") (mkWorld 0 [] [])).
Proof.
  split; [reflexivity|]. split; [reflexivity|]. split; [reflexivity|]. split; [lia|].
  exact (Open_existing demo_read_cbs 64 16 (mkWorld 0 [] []) "k" "rb" true 15 None
           eq_refl eq_refl eq_refl ltac:(lia)).
Defined.

End VsilExtraProofs.

(** * Further properties of the error/config scope bridge *)

Module GodalExtraProofs.
Import Godal GodalExtra GodalProofs.

(** ** Frame lemmas for the new bodies *)

Lemma forceCPLError_frame logger err s : same_frame s (forceCPLError logger err s).
Proof.
  unfold forceCPLError. destruct (negb _); [apply CPLError_frame | apply same_frame_refl].
Qed.

Ltac xframe_tac :=
  match goal with
  | |- same_frame ?a ?a => apply same_frame_refl
  | |- same_frame _ (CPLError _ _ _ _ ?x) =>
      apply (same_frame_trans _ x _); [xframe_tac | apply CPLError_frame]
  | |- same_frame _ (run_diags _ _ ?x) =>
      apply (same_frame_trans _ x _); [xframe_tac | apply run_diags_frame]
  | |- same_frame _ (forceError _ ?x) =>
      apply (same_frame_trans _ x _); [xframe_tac | apply forceError_frame]
  | |- same_frame _ (forceOGRError _ _ ?x) =>
      apply (same_frame_trans _ x _); [xframe_tac | apply forceOGRError_frame]
  | |- same_frame _ (forceCPLError _ _ ?x) =>
      apply (same_frame_trans _ x _); [xframe_tac | apply forceCPLError_frame]
  end.

Lemma run_diags_app logger ds1 ds2 s :
  run_diags logger (ds1 ++ ds2) s = run_diags logger ds2 (run_diags logger ds1 s).
Proof. unfold run_diags. apply fold_left_app. Qed.

(** ** The strict-mode message buffer *)

Definition append_msg (acc : option string) (m : string) : option string :=
  match acc with
  | None => Some m
  | Some a => Some (String.append a (String.append (String "010"%char EmptyString) m))
  end.

Definition at_least_warning (d : Z * Z * string) : bool := CE_Warning <=? d.1.1.

Lemma CPLError_strict logger e n msg s hs
    (Hh : handlers s = GodalErrorHandler :: hs) (Hi : handlerIdx (ctx s) = 0) :
  let s' := CPLError logger e n msg s in
  errMessage (ctx s') = (if CE_Warning <=? e then append_msg (errMessage (ctx s)) msg
                         else errMessage (ctx s)) /\
  stderr_log s' = (if CE_Warning <=? e then stderr_log s
                   else stderr_log s ++ [String.append "GDAL: " msg]) /\
  failed (ctx s') = failed (ctx s).
Proof.
  unfold CPLError. rewrite Hh. unfold godalErrorHandler. rewrite Hi. simpl.
  rewrite Z.ltb_antisym. destruct (CE_Warning <=? e); simpl; [|repeat split].
  destruct (errMessage (ctx s)); repeat split.
Qed.

Lemma run_diags_strict logger ds s hs
    (Hh : handlers s = GodalErrorHandler :: hs) (Hi : handlerIdx (ctx s) = 0) :
  let s' := run_diags logger ds s in
  errMessage (ctx s') =
    fold_left append_msg (map snd (List.filter at_least_warning ds)) (errMessage (ctx s)) /\
  stderr_log s' =
    stderr_log s ++ map (fun d => String.append "GDAL: " d.2)
                      (List.filter (fun d => negb (at_least_warning d)) ds) /\
  failed (ctx s') = failed (ctx s).
Proof.
  unfold run_diags. revert s Hh Hi.
  induction ds as [|d ds IH]; intros s Hh Hi; simpl.
  - rewrite app_nil_r. repeat split.
  - destruct (CPLError_frame logger d.1.1 d.1.2 d.2 s) as (Hh' & _ & Hi' & _).
    destruct (CPLError_strict logger d.1.1 d.1.2 d.2 s hs Hh Hi) as (Hm & Hl & Hf).
    destruct (IH (CPLError logger d.1.1 d.1.2 d.2 s)) as (Hm' & Hl' & Hf');
      [congruence|congruence|].
    rewrite Hm', Hl', Hf', Hm, Hl, Hf.
    unfold at_least_warning. destruct (CE_Warning <=? d.1.1); simpl.
    + repeat split.
    + rewrite <- app_assoc. repeat split.
Qed.

Lemma fold_append_msg (ms : list string) (m : string) :
  fold_left append_msg ms (Some m) =
  Some (fold_left (fun a b => String.append a
                     (String.append (String "010"%char EmptyString) b)) ms m).
Proof.
  revert m. induction ms as [|m' ms IH]; intros m; simpl; [reflexivity|].
  apply IH.
Qed.

Lemma join_nl_fold (ms : list string) : join_nl ms = fold_left append_msg ms None.
Proof. destruct ms as [|m ms]; simpl; [reflexivity|]. symmetry. apply fold_append_msg. Qed.

(** [godalErrorHandler] in the strict local mode ([handlerIdx = 0]),
    starting from no message: after a sequence of diagnostics the
    context's message is the newline-separated list of those of level
    [CE_Warning] or above, in order ([nullptr] if there is none), every
    lower-level one went to stderr prefixed by "GDAL: ", and the failure
    flag is left alone. *)
Theorem godalErrorHandler_strict_messages (logger : go_logger)
    (ds : list (Z * Z * string)) (s : tstate) (hs : list err_handler)
    (Hh : handlers s = GodalErrorHandler :: hs) (Hi : handlerIdx (ctx s) = 0)
    (He : errMessage (ctx s) = None) :
  let s' := run_diags logger ds s in
  errMessage (ctx s') = join_nl (map snd (List.filter (fun d => CE_Warning <=? d.1.1) ds)) /\
  stderr_log s' =
    stderr_log s ++ map (fun d => String.append "GDAL: " d.2)
                      (List.filter (fun d => d.1.1 <? CE_Warning) ds) /\
  failed (ctx s') = failed (ctx s).
Proof.
  cbn zeta. destruct (run_diags_strict logger ds s hs Hh Hi) as (Hm & Hl & Hf).
  rewrite join_nl_fold, Hm, He, Hl, Hf.
  assert (Hlow : List.filter (fun d => negb (at_least_warning d)) ds =
                 List.filter (fun d => d.1.1 <? CE_Warning) ds).
  { apply List.filter_ext. intros d. unfold at_least_warning.
    rewrite Z.ltb_antisym. reflexivity. }
  rewrite Hlow. repeat split.
Qed.

Definition strict_state : tstate :=
  mkT (mkCctx None 0 0 None) [GodalErrorHandler] ∅ [] [].

Definition mixed_diags : list (Z * Z * string) :=
  [(CE_Debug, 0, "opening"); (CE_Warning, 1, "w1"); (CE_Failure, 1, "e1")].

Lemma godalErrorHandler_strict_messages_witness :
  handlers strict_state = GodalErrorHandler :: [] /\
  handlerIdx (ctx strict_state) = 0 /\ errMessage (ctx strict_state) = None /\
  (let s' := run_diags silent_logger mixed_diags strict_state in
   errMessage (ctx s') =
     join_nl (map snd (List.filter (fun d => CE_Warning <=? d.1.1) mixed_diags)) /\
   stderr_log s' =
     stderr_log strict_state ++ map (fun d => String.append "GDAL: " d.2)
                      (List.filter (fun d => d.1.1 <? CE_Warning) mixed_diags) /\
   failed (ctx s') = failed (ctx strict_state)).
Proof.
  split; [reflexivity|]. split; [reflexivity|]. split; [reflexivity|].
  exact (godalErrorHandler_strict_messages silent_logger mixed_diags strict_state []
           eq_refl eq_refl eq_refl).
Defined.

Lemma CPLError_logger_fields logger e n msg s hs
    (Hh : handlers s = GodalErrorHandler :: hs) (Hi : handlerIdx (ctx s) <> 0) :
  errMessage (ctx (CPLError logger e n msg s)) = errMessage (ctx s) /\
  stderr_log (CPLError logger e n msg s) = stderr_log s.
Proof.
  unfold CPLError. rewrite Hh. unfold godalErrorHandler.
  apply Z.eqb_neq in Hi. rewrite Hi. simpl.
  destruct (negb _ && _); split; reflexivity.
Qed.

(** [godalErrorHandler] with an external logger ([handlerIdx <> 0]):
    diagnostics never write the context's message nor stderr; the call
    counts as failed afterwards exactly when it had failed before or the
    logger returned non-zero for one of them. *)
Theorem godalErrorHandler_logger_messages (logger : go_logger)
    (ds : list (Z * Z * string)) (s : tstate) (hs : list err_handler)
    (Hh : handlers s = GodalErrorHandler :: hs) (Hi : handlerIdx (ctx s) <> 0) :
  let s' := run_diags logger ds s in
  errMessage (ctx s') = errMessage (ctx s) /\ stderr_log s' = stderr_log s /\
  failed_ctx (ctx s') =
    failed_ctx (ctx s) ||
    existsb (fun d => negb (logger (handlerIdx (ctx s)) d.1.1 d.1.2 d.2 =? 0)) ds.
Proof.
  split; [|split; [|exact (run_diags_logger_mode logger ds s hs Hh Hi)]];
    unfold run_diags; revert s Hh Hi;
    induction ds as [|d ds IH]; intros s Hh Hi; simpl; try reflexivity;
    destruct (CPLError_frame logger d.1.1 d.1.2 d.2 s) as (Hh' & _ & Hi' & _);
    destruct (CPLError_logger_fields logger d.1.1 d.1.2 d.2 s hs Hh Hi) as [Hm Hl];
    (rewrite IH; [assumption|congruence|congruence]).
Qed.

Definition refusing_logger : go_logger := fun _ lvl _ _ => if lvl <? CE_Failure then 0 else 1.

Lemma godalErrorHandler_logger_messages_witness :
  let s := mkT (mkCctx None 3 0 None) [GodalErrorHandler] ∅ [] [] in
  handlers s = GodalErrorHandler :: [] /\ handlerIdx (ctx s) <> 0 /\
  (let s' := run_diags refusing_logger mixed_diags s in
   errMessage (ctx s') = errMessage (ctx s) /\ stderr_log s' = stderr_log s /\
   failed_ctx (ctx s') =
     failed_ctx (ctx s) ||
     existsb (fun d => negb (refusing_logger (handlerIdx (ctx s)) d.1.1 d.1.2 d.2 =? 0))
       mixed_diags).
Proof.
  split; [reflexivity|]. split; [discriminate|].
  exact (godalErrorHandler_logger_messages refusing_logger mixed_diags
           (mkT (mkCctx None 3 0 None) [GodalErrorHandler] ∅ [] []) [] eq_refl
           ltac:(discriminate)).
Defined.

(** ** Scope helpers *)

Lemma in_scope s t (Hf : same_frame (godalWrap s) t) :
  handlers t = GodalErrorHandler :: handlers s /\ handlerIdx (ctx t) = handlerIdx (ctx s).
Proof.
  destruct Hf as (Hh & _ & Hi & _). destruct (godalWrap_spec s) as (Hwh & Hwc & _).
  split; congruence.
Qed.

Lemma forceCPLError_strict_mode logger err s hs
    (Hh : handlers s = GodalErrorHandler :: hs) (Hi : handlerIdx (ctx s) = 0) :
  failed_ctx (ctx (forceCPLError logger err s)) = true.
Proof.
  unfold forceCPLError. destruct (failed_ctx (ctx s)) eqn:Hf; [simpl; rewrite Hf; reflexivity|].
  simpl. unfold CPLError. rewrite Hh. unfold godalErrorHandler.
  rewrite Hi. simpl. unfold failed_ctx in Hf.
  destruct (errMessage (ctx s)); [discriminate | reflexivity].
Qed.


(** A call that raises one failure diagnostic between [godalWrap] and
    [godalUnwrap] and does nothing else. *)
Lemma guard_error logger msg s :
  let s' := godalUnwrap (CPLError logger CE_Failure CPLE_AppDefined msg (godalWrap s)) in
  handlers s' = handlers s /\ native_log s' = native_log s /\
  ctx s' = ctx (godalErrorHandler logger CE_Failure CPLE_AppDefined msg s) /\
  (handlerIdx (ctx s) = 0 -> errMessage (ctx s) = None -> errMessage (ctx s') = Some msg).
Proof.
  cbn zeta.
  set (t := godalWrap s).
  destruct (godalWrap_spec s) as (Hwh & Hwc & Hwn & _).
  destruct (godalUnwrap_spec (CPLError logger CE_Failure CPLE_AppDefined msg t))
    as (Huh & Huc & Hun & _).
  destruct (CPLError_frame logger CE_Failure CPLE_AppDefined msg t) as (Hch & _ & _ & _).
  pose proof (CPLError_native_log logger CE_Failure CPLE_AppDefined msg t) as Hcn.
  assert (Hctx : ctx (CPLError logger CE_Failure CPLE_AppDefined msg t) =
                 ctx (godalErrorHandler logger CE_Failure CPLE_AppDefined msg s))
    by (unfold CPLError; unfold t; rewrite Hwh; apply godalErrorHandler_ctx; exact Hwc).
  split; [rewrite Huh, Hch; unfold t; rewrite Hwh; reflexivity|].
  split; [rewrite Hun, Hcn; exact Hwn|].
  split; [congruence|].
  intros Hi He. rewrite Huc, Hctx. unfold godalErrorHandler.
  rewrite Hi, He. reflexivity.
Qed.

(** ** godalSetDatasetNoDataValue *)

(** [godalSetDatasetNoDataValue] on a dataset with no raster band: it
    raises "cannot set nodata value on dataset with no raster bands" in
    the call's handler and returns, whatever the per-band setter would
    have done (it is never reached); the handler stack is restored. In
    the strict local mode, starting with no error, that text becomes the
    call's error message. *)
Theorem godalSetDatasetNoDataValue_no_bands (logger : go_logger)
    (setBand : Z -> native_outcome Z) (s : tstate) :
  let s' := godalSetDatasetNoDataValue logger 0 setBand s in
  handlers s' = handlers s /\ native_log s' = native_log s /\
  ctx s' = ctx (godalErrorHandler logger CE_Failure CPLE_AppDefined
                  "cannot set nodata value on dataset with no raster bands" s) /\
  (handlerIdx (ctx s) = 0 -> errMessage (ctx s) = None ->
   errMessage (ctx s') = Some "cannot set nodata value on dataset with no raster bands").
Proof. unfold godalSetDatasetNoDataValue. simpl. apply guard_error. Qed.

Lemma godalSetDatasetNoDataValue_no_bands_witness :
  let s' := godalSetDatasetNoDataValue silent_logger 0 (fun _ => mkOutcome [] 0)
              (fresh_state 0) in
  handlers s' = handlers (fresh_state 0) /\ native_log s' = native_log (fresh_state 0) /\
  ctx s' = ctx (godalErrorHandler silent_logger CE_Failure CPLE_AppDefined
                  "cannot set nodata value on dataset with no raster bands"
                  (fresh_state 0)) /\
  (handlerIdx (ctx (fresh_state 0)) = 0 -> errMessage (ctx (fresh_state 0)) = None ->
   errMessage (ctx s') = Some "cannot set nodata value on dataset with no raster bands").
Proof.
  exact (godalSetDatasetNoDataValue_no_bands silent_logger (fun _ => mkOutcome [] 0)
           (fresh_state 0)).
Defined.

Lemma nodata_loop_eq logger (setBand : Z -> native_outcome Z) (k n : nat) (ret : Z)
    (s : tstate) :
  nodata_loop logger setBand (Z.of_nat k) n ret s =
  (if ret =? 0
   then match find (fun r => negb (r =? 0))
                (map (fun i => n_result (setBand i)) (map Z.of_nat (seq k n))) with
        | Some r => r
        | None => 0
        end
   else ret,
   run_diags logger (concat (map (fun i => n_diags (setBand i)) (map Z.of_nat (seq k n)))) s).
Proof.
  revert k ret s. induction n as [|n IH]; intros k ret s; simpl.
  - destruct (ret =? 0) eqn:Hr; [apply Z.eqb_eq in Hr; subst|]; reflexivity.
  - replace (Z.of_nat k + 1) with (Z.of_nat (S k)) by lia.
    rewrite IH, run_diags_app. f_equal.
    destruct (n_result (setBand (Z.of_nat k)) =? 0) eqn:Hb;
      destruct (ret =? 0) eqn:Hr; simpl; rewrite ?Hb, ?Hr; reflexivity.
Qed.

Lemma nodata_loop_frame logger (setBand : Z -> native_outcome Z) (i : Z) (n : nat)
    (ret : Z) (s : tstate) :
  same_frame s (snd (nodata_loop logger setBand i n ret s)).
Proof.
  revert i ret s. induction n as [|n IH]; intros i ret s; simpl; [apply same_frame_refl|].
  eapply same_frame_trans; [apply run_diags_frame | apply IH].
Qed.

(** [godalSetDatasetNoDataValue] on a dataset with [count <> 0] bands:
    the setter is called on every band [1..count] in order, all their
    diagnostics reach the handler, and a failure diagnostic for the first
    non-zero band error code (later ones are dropped) is forced only when
    none is recorded yet. *)
Theorem godalSetDatasetNoDataValue_all_bands (logger : go_logger) (count : Z)
    (setBand : Z -> native_outcome Z) (s : tstate) (Hc : count <> 0) :
  let bands := map Z.of_nat (seq 1 (Z.to_nat count)) in
  let s2 := run_diags logger (concat (map (fun i => n_diags (setBand i)) bands))
              (godalWrap s) in
  godalSetDatasetNoDataValue logger count setBand s =
  godalUnwrap (match find (fun r => negb (r =? 0)) (map (fun i => n_result (setBand i)) bands)
               with
               | Some r => forceCPLError logger r s2
               | None => s2
               end).
Proof.
  cbn zeta. unfold godalSetDatasetNoDataValue.
  apply Z.eqb_neq in Hc. rewrite Hc.
  change 1 with (Z.of_nat 1). rewrite nodata_loop_eq. simpl (CE_None =? 0).
  destruct (find _ _) as [r|] eqn:Hf; [|reflexivity].
  apply find_some in Hf as [_ Hr]. rewrite Hr. reflexivity.
Qed.

Definition nodata_setter (i : Z) : native_outcome Z :=
  if i =? 2 then mkOutcome [(CE_Failure, 1, "band 2 is read-only")] CE_Failure
  else mkOutcome [] CE_None.

Lemma godalSetDatasetNoDataValue_all_bands_witness :
  3 <> 0 /\
  (let bands := map Z.of_nat (seq 1 (Z.to_nat 3)) in
   let s2 := run_diags silent_logger (concat (map (fun i => n_diags (nodata_setter i)) bands))
               (godalWrap (fresh_state 0)) in
   godalSetDatasetNoDataValue silent_logger 3 nodata_setter (fresh_state 0) =
   godalUnwrap (match find (fun r => negb (r =? 0))
                      (map (fun i => n_result (nodata_setter i)) bands) with
                | Some r => forceCPLError silent_logger r s2
                | None => s2
                end)).
Proof.
  split; [discriminate|].
  exact (godalSetDatasetNoDataValue_all_bands silent_logger 3 nodata_setter (fresh_state 0)
           ltac:(discriminate)).
Defined.

(** ** Guards that stop before the native routine *)

(** [godalCreateDatasetMaskBand] on a dataset with no band: returns
    [nullptr] after raising "cannot create mask band on dataset with no
    bands", whatever [GDALCreateDatasetMaskBand] and [GDALGetMaskBand]
    would have done (they are never reached). *)
Theorem godalCreateDatasetMaskBand_no_bands (logger : go_logger)
    (create : native_outcome Z) (getMask : native_outcome (option Z)) (s : tstate) :
  let '(ret, s') := godalCreateDatasetMaskBand logger 0 create getMask s in
  ret = None /\ handlers s' = handlers s /\
  ctx s' = ctx (godalErrorHandler logger CE_Failure CPLE_AppDefined
                  "cannot create mask band on dataset with no bands" s) /\
  (handlerIdx (ctx s) = 0 -> errMessage (ctx s) = None ->
   errMessage (ctx s') = Some "cannot create mask band on dataset with no bands").
Proof.
  unfold godalCreateDatasetMaskBand. simpl.
  destruct (guard_error logger "cannot create mask band on dataset with no bands" s)
    as (H1 & _ & H3 & H4).
  split; [reflexivity|]. split; [exact H1|]. split; [exact H3 | exact H4].
Qed.

Lemma godalCreateDatasetMaskBand_no_bands_witness :
  let '(ret, s') := godalCreateDatasetMaskBand silent_logger 0 (mkOutcome [] 0)
                      (mkOutcome [] (Some 9)) (fresh_state 0) in
  ret = None /\ handlers s' = handlers (fresh_state 0) /\
  ctx s' = ctx (godalErrorHandler silent_logger CE_Failure CPLE_AppDefined
                  "cannot create mask band on dataset with no bands" (fresh_state 0)) /\
  (handlerIdx (ctx (fresh_state 0)) = 0 -> errMessage (ctx (fresh_state 0)) = None ->
   errMessage (ctx s') = Some "cannot create mask band on dataset with no bands").
Proof.
  exact (godalCreateDatasetMaskBand_no_bands silent_logger (mkOutcome [] 0)
           (mkOutcome [] (Some 9)) (fresh_state 0)).
Defined.

(** [godalPolygonize] with a field index not below the layer's field
    count: raises "invalid fieldIndex" and returns, whatever
    [GDALPolygonize] would have done (it is never reached). *)
Theorem godalPolygonize_invalid_field (logger : go_logger) (fieldCount fieldIndex : Z)
    (polygonize : native_outcome Z) (s : tstate) (Hidx : fieldCount <= fieldIndex) :
  let s' := godalPolygonize logger fieldCount fieldIndex polygonize s in
  handlers s' = handlers s /\
  ctx s' = ctx (godalErrorHandler logger CE_Failure CPLE_AppDefined "invalid fieldIndex" s) /\
  (handlerIdx (ctx s) = 0 -> errMessage (ctx s) = None ->
   errMessage (ctx s') = Some "invalid fieldIndex").
Proof.
  unfold godalPolygonize. apply Z.leb_le in Hidx. rewrite Hidx.
  destruct (guard_error logger "invalid fieldIndex" s) as (H1 & _ & H3 & H4).
  split; [exact H1|]. split; [exact H3 | exact H4].
Qed.

Lemma godalPolygonize_invalid_field_witness :
  2 <= 2 /\
  (let s' := godalPolygonize silent_logger 2 2 (mkOutcome [] 0) (fresh_state 0) in
   handlers s' = handlers (fresh_state 0) /\
   ctx s' = ctx (godalErrorHandler silent_logger CE_Failure CPLE_AppDefined
                   "invalid fieldIndex" (fresh_state 0)) /\
   (handlerIdx (ctx (fresh_state 0)) = 0 -> errMessage (ctx (fresh_state 0)) = None ->
    errMessage (ctx s') = Some "invalid fieldIndex")).
Proof.
  split; [lia|].
  exact (godalPolygonize_invalid_field silent_logger 2 2 (mkOutcome [] 0) (fresh_state 0)
           ltac:(lia)).
Defined.

(** ** godalTranslate *)

(** [godalTranslate] when building the options failed (the call's
    context counts as failed after [GDALTranslateOptionsNew]): returns
    [nullptr], and the outcome is the same whatever [GDALTranslate] would
    have done (it is never reached). *)
Theorem godalTranslate_options_error (logger : go_logger) (optsNew : native_outcome unit)
    (s : tstate)
    (Hf : failed_ctx (ctx (run_diags logger (n_diags optsNew) (godalWrap s))) = true) :
  forall translate translate' : native_outcome (option Z * Z),
  fst (godalTranslate logger optsNew translate s) = None /\
  godalTranslate logger optsNew translate s = godalTranslate logger optsNew translate' s.
Proof.
  intros translate translate'. unfold godalTranslate. cbn zeta. rewrite Hf.
  split; reflexivity.
Qed.

Definition bad_switches : native_outcome unit :=
  mkOutcome [(CE_Failure, 6, "unknown option name '-foo'")] tt.

Lemma godalTranslate_options_error_witness :
  failed_ctx (ctx (run_diags silent_logger (n_diags bad_switches) (godalWrap (fresh_state 0))))
    = true /\
  (fst (godalTranslate silent_logger bad_switches (mkOutcome [] (Some 5, 0)) (fresh_state 0))
     = None /\
   godalTranslate silent_logger bad_switches (mkOutcome [] (Some 5, 0)) (fresh_state 0) =
   godalTranslate silent_logger bad_switches (mkOutcome [] (None, 1)) (fresh_state 0)).
Proof.
  split; [vm_compute; reflexivity|].
  exact (godalTranslate_options_error silent_logger bad_switches (fresh_state 0)
           ltac:(vm_compute; reflexivity) _ _).
Defined.

(** [godalTranslate] in the strict local mode: a [nullptr] result always
    comes with an error; a non-null result is the dataset [GDALTranslate]
    returned, and it is returned even when [GDALTranslate] reported a
    usage error, in which case the call also reports an error. *)
Theorem godalTranslate_strict (logger : go_logger) (optsNew : native_outcome unit)
    (translate : native_outcome (option Z * Z)) (s : tstate)
    (Hi : handlerIdx (ctx s) = 0) :
  let '(ret, s') := godalTranslate logger optsNew translate s in
  (ret = None -> failed_ctx (ctx s') = true) /\
  (forall ds, ret = Some ds ->
     fst (n_result translate) = Some ds /\
     (snd (n_result translate) <> 0 -> failed_ctx (ctx s') = true)).
Proof.
  unfold godalTranslate. cbn zeta.
  set (s2 := run_diags logger (n_diags optsNew) (godalWrap s)).
  destruct (failed_ctx (ctx s2)) eqn:Hf.
  - destruct (godalUnwrap_spec s2) as (_ & Huc & _). rewrite Huc, Hf.
    split; [reflexivity | intros ds Hds; discriminate].
  - set (s3 := run_diags logger (n_diags translate) s2).
    assert (Hfr : same_frame (godalWrap s) s3) by (unfold s3, s2; xframe_tac).
    destruct (in_scope s s3 Hfr) as [Hh3 Hi3].
    destruct (n_result translate) as [ret usageErr].
    destruct ret as [ds|]; simpl.
    + destruct (negb (usageErr =? 0)) eqn:Hu.
      * destruct (godalUnwrap_spec (forceError logger s3)) as (_ & Huc & _). rewrite Huc.
        split; [intros H; discriminate|]. intros ds' Hds. split; [exact Hds|].
        intros _. apply (forceError_strict_mode logger s3 (handlers s)); congruence.
      * split; [intros H; discriminate|]. intros ds' Hds. split; [exact Hds|].
        intros Hne. apply negb_false_iff, Z.eqb_eq in Hu. contradiction.
    + destruct (godalUnwrap_spec (forceError logger s3)) as (_ & Huc & _). rewrite Huc.
      split; [intros _; apply (forceError_strict_mode logger s3 (handlers s)); congruence|].
      intros ds Hds. discriminate.
Qed.

Lemma godalTranslate_strict_witness :
  handlerIdx (ctx (fresh_state 0)) = 0 /\
  (let '(ret, s') := godalTranslate silent_logger (mkOutcome [] tt)
                       (mkOutcome [] (Some 5, 1)) (fresh_state 0) in
   (ret = None -> failed_ctx (ctx s') = true) /\
   (forall ds, ret = Some ds ->
      fst (n_result (mkOutcome [] (Some 5, 1))) = Some ds /\
      (snd (n_result (mkOutcome [] (Some 5, 1))) <> 0 -> failed_ctx (ctx s') = true))).
Proof.
  split; [reflexivity|].
  exact (godalTranslate_strict silent_logger (mkOutcome [] tt) (mkOutcome [] (Some 5, 1))
           (fresh_state 0) eq_refl).
Defined.

(** ** Geometry creation and export *)

(** [godalNewGeometryFromGeoJSON]: a non-null result is the geometry the
    native parser returned, and comes with no error (a geometry parsed
    while the call failed is destroyed, never returned); in the strict
    local mode a [nullptr] result always comes with an error. *)
Theorem godalNewGeometryFromGeoJSON_result (logger : go_logger)
    (create : native_outcome (option Z)) (s : tstate) :
  let '(g, s') := godalNewGeometryFromGeoJSON logger create s in
  (forall p, g = Some p -> n_result create = Some p /\ failed_ctx (ctx s') = false) /\
  (handlerIdx (ctx s) = 0 -> g = None -> failed_ctx (ctx s') = true).
Proof.
  unfold godalNewGeometryFromGeoJSON. cbn zeta.
  set (s2 := run_diags logger (n_diags create) (godalWrap s)).
  assert (Hfr : same_frame (godalWrap s) s2) by (unfold s2; xframe_tac).
  destruct (in_scope s s2 Hfr) as [Hh2 Hi2].
  destruct (n_result create) as [p|].
  - destruct (godalUnwrap_spec s2) as (_ & Huc & _). rewrite Huc.
    destruct (failed_ctx (ctx s2)) eqn:Hf.
    + split; [intros q Hq; discriminate | intros _ _; reflexivity].
    + split; [intros q Hq; injection Hq as <-; split; reflexivity|].
      intros _ Hn. discriminate.
  - destruct (godalUnwrap_spec (forceError logger s2)) as (_ & Huc & _). rewrite Huc.
    split.
    + intros q Hq. destruct (failed_ctx _); discriminate.
    + intros Hi _. apply (forceError_strict_mode logger s2 (handlers s)); congruence.
Qed.

Lemma godalNewGeometryFromGeoJSON_result_witness :
  let '(g, s') := godalNewGeometryFromGeoJSON silent_logger
                    (mkOutcome [(CE_Failure, 1, "bad json")] (Some 4)) (fresh_state 0) in
  (forall p, g = Some p ->
     n_result (mkOutcome [(CE_Failure, 1, "bad json")] (Some 4)) = Some p /\
     failed_ctx (ctx s') = false) /\
  (handlerIdx (ctx (fresh_state 0)) = 0 -> g = None -> failed_ctx (ctx s') = true).
Proof.
  exact (godalNewGeometryFromGeoJSON_result silent_logger
           (mkOutcome [(CE_Failure, 1, "bad json")] (Some 4)) (fresh_state 0)).
Defined.



(** ** godalGetRasterStatistics *)

(** [godalGetRasterStatistics]: returns 1 exactly when the native call
    returned [CE_None]. A [CE_Warning] return (no statistics stored) is
    not turned into an error: the context only sees the native call's own
    diagnostics. Any other non-zero return reports an error in the strict
    local mode. *)
Theorem godalGetRasterStatistics_result (logger : go_logger) (stats : native_outcome Z)
    (s : tstate) :
  let '(r, s') := godalGetRasterStatistics logger stats s in
  (r = 1 <-> n_result stats = CE_None) /\
  (n_result stats = CE_Warning ->
   r = 0 /\ ctx s' = ctx (run_diags logger (n_diags stats) (godalWrap s))) /\
  (handlerIdx (ctx s) = 0 -> n_result stats <> CE_None -> n_result stats <> CE_Warning ->
   failed_ctx (ctx s') = true).
Proof.
  unfold godalGetRasterStatistics. cbn zeta.
  set (s2 := run_diags logger (n_diags stats) (godalWrap s)).
  assert (Hfr : same_frame (godalWrap s) s2) by (unfold s2; xframe_tac).
  destruct (in_scope s s2 Hfr) as [Hh2 Hi2].
  split.
  - destruct (n_result stats =? 0) eqn:Hz; [apply Z.eqb_eq in Hz | apply Z.eqb_neq in Hz];
      unfold CE_None; split; intros H; try reflexivity; try discriminate; congruence.
  - split.
    + intros Hw. rewrite Hw. simpl. split; [reflexivity|].
      destruct (godalUnwrap_spec s2) as (_ & Huc & _). exact Huc.
    + intros Hi Hn Hw.
      assert (Hc : negb (n_result stats =? 0) && negb (n_result stats =? CE_Warning) = true)
        by (apply andb_true_intro; split; apply negb_true_iff, Z.eqb_neq; assumption).
      rewrite Hc.
      destruct (godalUnwrap_spec (forceCPLError logger (n_result stats) s2)) as (_ & Huc & _).
      rewrite Huc. apply (forceCPLError_strict_mode logger _ s2 (handlers s)); congruence.
Qed.

Lemma godalGetRasterStatistics_result_witness :
  let '(r, s') := godalGetRasterStatistics silent_logger (mkOutcome [] CE_Warning)
                    (fresh_state 0) in
  (r = 1 <-> n_result (mkOutcome [] CE_Warning) = CE_None) /\
  (n_result (mkOutcome [] CE_Warning) = CE_Warning ->
   r = 0 /\ ctx s' = ctx (run_diags silent_logger (n_diags (mkOutcome [] CE_Warning))
                            (godalWrap (fresh_state 0)))) /\
  (handlerIdx (ctx (fresh_state 0)) = 0 -> n_result (mkOutcome [] CE_Warning) <> CE_None ->
   n_result (mkOutcome [] CE_Warning) <> CE_Warning -> failed_ctx (ctx s') = true).
Proof.
  exact (godalGetRasterStatistics_result silent_logger (mkOutcome [] CE_Warning)
           (fresh_state 0)).
Defined.

(** ** godalVSIClose *)

Lemma filter_warning_nil (ds : list (Z * Z * string)) :
  List.filter at_least_warning ds = [] <-> Forall (fun d => d.1.1 < CE_Warning) ds.
Proof.
  induction ds as [|d ds IH]; simpl; [split; constructor|].
  unfold at_least_warning at 1. destruct (CE_Warning <=? d.1.1) eqn:Hw.
  - apply Z.leb_le in Hw. split; [discriminate|].
    intros Hf. inversion Hf. lia.
  - apply Z.leb_gt in Hw. rewrite IH. split; [intros H; constructor; assumption|].
    intros Hf. inversion Hf. assumption.
Qed.

Lemma godalWrap_no_options s (H : configOptions (ctx s) = None) :
  godalWrap s = set_handlers (GodalErrorHandler :: handlers s) s.
Proof. unfold godalWrap. simpl. rewrite H. reflexivity. Qed.

Lemma godalUnwrap_no_options s (H : configOptions (ctx s) = None) :
  godalUnwrap s = set_handlers (tail (handlers s)) s.
Proof. unfold godalUnwrap. simpl. rewrite H. reflexivity. Qed.

(** [godalVSIClose] runs with a context of its own: it returns no message
    exactly when [VSIFCloseL] returned 0 and raised nothing of level
    [CE_Warning] or above; the caller's context, the handler stack and
    the thread-local config are as they were. *)
Theorem godalVSIClose_result (logger : go_logger) (close : native_outcome Z) (s : tstate) :
  let '(msg, s') := godalVSIClose logger close s in
  ctx s' = ctx s /\ handlers s' = handlers s /\ config s' = config s /\
  (msg = None <-> n_result close = 0 /\ Forall (fun d => d.1.1 < CE_Warning) (n_diags close)).
Proof.
  unfold godalVSIClose. cbn zeta.
  set (c0 := mkCctx None 0 0 None).
  rewrite (godalWrap_no_options (set_ctx c0 s) eq_refl).
  set (t := set_handlers (GodalErrorHandler :: handlers (set_ctx c0 s)) (set_ctx c0 s)).
  set (s2 := run_diags logger (n_diags close) t).
  set (s3 := if negb (n_result close =? 0) then forceError logger s2 else s2).
  assert (Hfr : same_frame t s3)
    by (unfold s3, s2; destruct (negb _); xframe_tac).
  destruct Hfr as (Hh3 & Hc3 & Hi3 & Ho3).
  rewrite (godalUnwrap_no_options s3) by (rewrite Ho3; reflexivity).
  split; [reflexivity|]. split; [simpl; rewrite Hh3; reflexivity|].
  split; [simpl; rewrite Hc3; reflexivity|]. simpl.
  destruct (run_diags_strict logger (n_diags close) t (handlers s) eq_refl eq_refl)
    as (Hm & _ & Hf).
  fold s2 in Hm, Hf.
  assert (Hm' : errMessage (ctx s2) = join_nl (map snd (List.filter at_least_warning
                                                           (n_diags close))))
    by (rewrite Hm, join_nl_fold; reflexivity).
  destruct (run_diags_frame logger (n_diags close) t) as (Hh2 & _ & Hi2 & _).
  fold s2 in Hh2, Hi2.
  unfold s3. destruct (n_result close =? 0) eqn:Hz; simpl.
  - apply Z.eqb_eq in Hz. rewrite Hm', <- filter_warning_nil.
    destruct (List.filter at_least_warning (n_diags close)); simpl;
      split; intros H; try tauto; try discriminate; destruct H; discriminate.
  - apply Z.eqb_neq in Hz. split; [|intros [H _]; contradiction].
    intros Hnone. exfalso.
    unfold forceError in Hnone. destruct (failed_ctx (ctx s2)) eqn:Hfc; simpl in Hnone.
    + unfold failed_ctx in Hfc. rewrite Hnone in Hfc. rewrite Hf in Hfc. discriminate.
    + destruct (CPLError_strict logger CE_Failure CPLE_AppDefined "unknown error" s2
                  (handlers s) Hh2 Hi2) as (Hm2 & _ & _).
      simpl in Hm2. rewrite Hm2 in Hnone.
      destruct (errMessage (ctx s2)); discriminate.
Qed.

Lemma godalVSIClose_result_witness :
  let '(msg, s') := godalVSIClose silent_logger
                      (mkOutcome [(CE_Failure, 3, "flush failed")] (-1)) (fresh_state 1) in
  ctx s' = ctx (fresh_state 1) /\ handlers s' = handlers (fresh_state 1) /\
  config s' = config (fresh_state 1) /\
  (msg = None <-> n_result (mkOutcome [(CE_Failure, 3, "flush failed")] (-1)) = 0 /\
                  Forall (fun d => d.1.1 < CE_Warning)
                    (n_diags (mkOutcome [(CE_Failure, 3, "flush failed")] (-1)))).
Proof.
  exact (godalVSIClose_result silent_logger
           (mkOutcome [(CE_Failure, 3, "flush failed")] (-1)) (fresh_state 1)).
Defined.

(** ** Null-terminated handle lists *)

Lemma fill_handles_spec (get : Z -> Z) (i fuel : nat) (ret : list Z)
    (H : (i + fuel <= length ret)%nat) :
  fill_handles get i fuel ret =
  take i ret ++ map (fun j => get (Z.of_nat j)) (seq i fuel) ++ drop (i + fuel) ret.
Proof.
  revert i ret H. induction fuel as [|f IH]; intros i ret H; simpl.
  - rewrite Nat.add_0_r. symmetry. apply take_drop.
  - rewrite IH by (rewrite length_insert; lia).
    rewrite (take_S_r _ _ (get (Z.of_nat i))) by (apply list_lookup_insert_eq; lia).
    rewrite take_insert_ge by lia.
    rewrite drop_insert_lt by lia.
    replace (i + S f)%nat with (S i + f)%nat by lia.
    rewrite <- app_assoc. reflexivity.
Qed.

Lemma drop_repeat_last (g : Z) (n : nat) : drop n (repeat g (n + 1)) = [g].
Proof. induction n as [|n IH]; simpl; [reflexivity | exact IH]. Qed.

Lemma null_terminated_spec (count : Z) (get : Z -> Z) (garbage : Z) :
  null_terminated count get garbage =
  map (fun j => get (Z.of_nat j)) (seq 0 (Z.to_nat count)) ++ [0].
Proof.
  unfold null_terminated.
  rewrite fill_handles_spec
    by (rewrite length_insert, repeat_length; lia).
  simpl. f_equal.
  rewrite drop_insert_ge by lia. rewrite Nat.sub_diag, drop_repeat_last. reflexivity.
Qed.

(** [godalRasterBands], [godalVectorLayers], [godalBandOverviews] on an
    object with [count > 0] entries: a [count + 1] array holding band
    [i + 1] (layer [i], overview [i]) at slot [i] and [nullptr] at slot
    [count]; every slot is written, nothing of the uninitialised
    allocation survives. *)
Theorem handle_lists (count : Z) (Hc : 0 < count)
    (GDALGetRasterBand GDALDatasetGetLayer GDALGetOverview : Z -> Z) (garbage : Z) :
  godalRasterBands count GDALGetRasterBand garbage =
    Some (map (fun j => GDALGetRasterBand (Z.of_nat j + 1)) (seq 0 (Z.to_nat count)) ++ [0]) /\
  godalVectorLayers count GDALDatasetGetLayer garbage =
    Some (map (fun j => GDALDatasetGetLayer (Z.of_nat j)) (seq 0 (Z.to_nat count)) ++ [0]) /\
  godalBandOverviews count GDALGetOverview garbage =
    Some (map (fun j => GDALGetOverview (Z.of_nat j)) (seq 0 (Z.to_nat count)) ++ [0]).
Proof.
  unfold godalRasterBands, godalVectorLayers, godalBandOverviews.
  assert (Hz : (count =? 0) = false) by (apply Z.eqb_neq; lia). rewrite Hz.
  rewrite !null_terminated_spec. repeat split.
Qed.

Lemma handle_lists_witness :
  0 < 3 /\
  godalRasterBands 3 (fun i => 100 + i) 77 =
    Some (map (fun j => (fun i => 100 + i) (Z.of_nat j + 1)) (seq 0 (Z.to_nat 3)) ++ [0]) /\
  godalVectorLayers 3 (fun i => 200 + i) 77 =
    Some (map (fun j => (fun i => 200 + i) (Z.of_nat j)) (seq 0 (Z.to_nat 3)) ++ [0]) /\
  godalBandOverviews 3 (fun i => 300 + i) 77 =
    Some (map (fun j => (fun i => 300 + i) (Z.of_nat j)) (seq 0 (Z.to_nat 3)) ++ [0]).
Proof.
  split; [lia|].
  exact (handle_lists 3 ltac:(lia) (fun i => 100 + i) (fun i => 200 + i) (fun i => 300 + i) 77).
Defined.

(** ** Scope restoration for the further bridged calls *)

Definition reverts (s s' : tstate) : Prop :=
  configOptions (ctx s') = configOptions (ctx s) /\ handlers s' = handlers s /\
  (forall k, config s' !! k =
     if decide (k ∈ ctx_override_keys (ctx s)) then None else config s !! k).

(** Around [godalSetDatasetNoDataValue], [godalCreateDatasetMaskBand],
    [godalPolygonize], [godalTranslate], [godalNewGeometryFromGeoJSON],
    [godalExportGeometryWKB] and [godalGetRasterStatistics], on every
    path: the handler stack is back as it was, every KEY of the context's
    KEY=VALUE config list is unset, every other config key keeps its
    value and the config list is unchanged. *)
Theorem further_calls_revert_config (logger : go_logger) (s : tstate)
    (count : Z) (setBand : Z -> native_outcome Z)
    (create : native_outcome Z) (getMask : native_outcome (option Z))
    (fieldCount fieldIndex : Z) (polygonize : native_outcome Z)
    (optsNew : native_outcome unit) (translate : native_outcome (option Z * Z))
    (geom : native_outcome (option Z))
    (wkbSize : Z) (export : native_outcome (Z * list Byte.byte))
    (stats : native_outcome Z) :
  reverts s (godalSetDatasetNoDataValue logger count setBand s) /\
  reverts s (snd (godalCreateDatasetMaskBand logger count create getMask s)) /\
  reverts s (godalPolygonize logger fieldCount fieldIndex polygonize s) /\
  reverts s (snd (godalTranslate logger optsNew translate s)) /\
  reverts s (snd (godalNewGeometryFromGeoJSON logger geom s)) /\
  reverts s (snd (godalExportGeometryWKB logger wkbSize export s)) /\
  reverts s (snd (godalGetRasterStatistics logger stats s)).
Proof.
  split; [|split; [|split; [|split; [|split; [|split]]]]]; unfold reverts.
  - unfold godalSetDatasetNoDataValue. cbn zeta.
    destruct (count =? 0); [apply scoped_frame; xframe_tac|].
    destruct (nodata_loop logger setBand 1 (Z.to_nat count) CE_None (godalWrap s))
      as [ret s2] eqn:E.
    assert (Hfr : same_frame (godalWrap s) s2).
    { pose proof (nodata_loop_frame logger setBand 1 (Z.to_nat count) CE_None
                    (godalWrap s)) as H.
      rewrite E in H. exact H. }
    apply scoped_frame. destruct (negb _); [|exact Hfr].
    apply (same_frame_trans _ s2 _); [exact Hfr | apply forceCPLError_frame].
  - unfold godalCreateDatasetMaskBand. cbn zeta.
    destruct (count =? 0); [cbn [snd]; apply scoped_frame; xframe_tac|].
    destruct (negb _); [cbn [snd]; apply scoped_frame; xframe_tac|].
    destruct (n_result getMask); cbn [snd]; apply scoped_frame; xframe_tac.
  - unfold godalPolygonize. cbn zeta.
    destruct (fieldCount <=? fieldIndex); apply scoped_frame; [xframe_tac|].
    destruct (negb _); xframe_tac.
  - unfold godalTranslate. cbn zeta.
    destruct (failed_ctx _); [cbn [snd]; apply scoped_frame; xframe_tac|].
    destruct (n_result translate) as [[ds|] usageErr];
      [destruct (negb _)|]; cbn [snd]; apply scoped_frame; xframe_tac.
  - unfold godalNewGeometryFromGeoJSON. cbn zeta. cbn [snd].
    apply scoped_frame. destruct (n_result geom); xframe_tac.
  - unfold godalExportGeometryWKB. cbn zeta.
    destruct (wkbSize =? 0); [cbn [snd]; apply scoped_frame; xframe_tac|].
    destruct (n_result export) as [gret bytes].
    destruct (negb _); cbn [snd]; apply scoped_frame; xframe_tac.
  - unfold godalGetRasterStatistics. cbn zeta.
    destruct (negb _ && negb _); cbn [snd]; apply scoped_frame; xframe_tac.
Qed.

End GodalExtraProofs.
